(** * The coretex network layer: transport retries, token refresh, chunked upload

    A shallow embedding of
      - [coretex/networking/requests_manager.py]    (Module [RequestsManager]),
      - [coretex/networking/network_manager_base.py] (Module [NetworkManagerBase]),
      - [coretex/networking/chunk_upload_session.py] (Module [ChunkUploadSession]).

    Python code that talks to the network and to the file system is written
    in a state-and-exception monad over a [State] that holds the remote
    server's behaviour, the list of HTTP requests sent so far, the two tokens
    of the client and the files on disk. *)

From Stdlib Require Import ZArith Lia.
From stdpp Require Import base option list gmap strings.
From Equations Require Import Equations.

Open Scope string_scope.
Open Scope list_scope.
Open Scope Z_scope.

(** ** Data model *)

(** Python [bytes]. *)
Abbreviation bytes := (list Byte.byte).

(** The leaves of a parsed JSON body, also the values Python stores in a
    [dict] of parameters or headers. *)
Inductive JValue :=
| JNull
| JBool (b : bool)
| JNum (n : Z)
| JStr (s : string).

(** A JSON [null] read into Python is [None]. *)
Definition pyOptional (v : JValue) : option JValue :=
  match v with JNull => None | _ => Some v end.

Module RequestType.
(** Modelled from the spec: [request_type.py] is not among the sources; the
    spec's request descriptor has a method that "is one of
    GET/POST/DELETE/PUT-equivalent". *)
Inductive t := get | post | put | delete.
End RequestType.

Module HttpCode.
(** Modelled from the spec: [network_response.py] is not among the sources;
    the spec names the three codes the retry policy looks at: 401, 500 and
    503. *)
Definition unauthorized : Z := 401.
Definition internalServerError : Z := 500.
Definition serviceUnavailable : Z := 503.
End HttpCode.

(** Modelled from the spec: [NetworkResponse] of [network_response.py] is not
    among the sources.  The spec's response is
    "{ statusCode: integer, rawBody: bytes, parsedJSON: mapping|absent, ok:
    boolean }" (an absent mapping is the empty one here), with "hasFailed()
    is true when statusCode is not in the success range".  [ok] is the flag
    [raw.ok] of the HTTP library: false exactly for the client-error and
    server-error codes 400..599. *)
Record NetworkResponse := mkResponse {
  statusCode : Z;
  content : bytes;
  json : gmap string JValue
}.

(** Modelled from the spec: [raw.ok], the "ok: boolean" of the spec's
    response. *)
Definition ok (r : NetworkResponse) : bool :=
  negb ((400 <=? statusCode r) && (statusCode r <? 600)).

(** Modelled from the spec: [NetworkResponse.hasFailed], "true when
    statusCode is not in the success range". *)
Definition hasFailed (r : NetworkResponse) : bool := negb (ok r).

(** Modelled from the spec: [NetworkResponse.isUnauthorized], "the response
    is HTTP 401". *)
Definition isUnauthorized (r : NetworkResponse) : bool :=
  statusCode r =? HttpCode.unauthorized.

(** What goes into the [data] argument of a request. *)
Inductive Data :=
| NoData
| JsonText (parameters : gmap string JValue)   (* json.dumps(parameters) *)
| FormFields (parameters : gmap string JValue). (* a dict, sent form-encoded *)

(** One entry of a multipart [files] mapping:
    field name -> (file name, content, mime type). *)
Record FilePart := mkFilePart {
  fileName : string;
  fileBytes : bytes;
  fileMime : string
}.

(** One call of the HTTP library: [Session.request], [Session.get] or
    [Session.post] with its keyword arguments. *)
Record Request := mkRequest {
  method : RequestType.t;
  endpoint : string;
  headers : option (gmap string JValue);
  data : Data;
  jsonObject : option (gmap string JValue);
  files : option (gmap string FilePart)
}.

(** What one call of the HTTP library does: it raises, or it gives a response
    (of any status). *)
Inductive Outcome :=
| Raised
| Responded (r : NetworkResponse).

(** The remote side: the outcome of a request, given all the requests sent
    before it (oldest first). *)
Definition Server := list Request → Request → Outcome.

(** A file-system path as its components, outermost first; [[]] is the
    directory all paths start from. *)
Abbreviation Path := (list string).

Inductive Node :=
| Dir
| File (contents : bytes).

(** A call that changes the disk: [Path.unlink], [Path.mkdir] with its
    parents, and the writing of a file opened with "wb". *)
Inductive FsCall :=
| PathUnlink (p : Path)
| PathMkdir (p : Path)
| OpenWrite (p : Path) (contents : bytes).

(** The state of the client and of its surroundings.  [mimeGuess] stands for
    [utils.guessMimeType], which is not among the sources ("a MIME-type
    guesser given a file path"); [None] is a guess that raises.  [sent] and
    [fsCalls] record, oldest first, the requests handed to the HTTP library
    and the calls made to change the disk. *)
Record State := mkState {
  server : Server;
  sent : list Request;
  apiToken : option JValue;       (* NetworkManagerBase._apiToken *)
  refreshTokenValue : option JValue;  (* NetworkManagerBase._refreshToken *)
  userAgent : string;             (* NetworkManagerBase.userAgent *)
  fs : gmap Path Node;
  mimeGuess : Path → option string;
  fsCalls : list FsCall
}.

Definition withSent (s : State) (l : list Request) : State :=
  mkState (server s) l (apiToken s) (refreshTokenValue s) (userAgent s) (fs s) (mimeGuess s)
    (fsCalls s).

Definition withApiToken (s : State) (t : option JValue) : State :=
  mkState (server s) (sent s) t (refreshTokenValue s) (userAgent s) (fs s) (mimeGuess s)
    (fsCalls s).

Definition withFs (s : State) (f : gmap Path Node) : State :=
  mkState (server s) (sent s) (apiToken s) (refreshTokenValue s) (userAgent s) f (mimeGuess s)
    (fsCalls s).

Definition withFsCalls (s : State) (l : list FsCall) : State :=
  mkState (server s) (sent s) (apiToken s) (refreshTokenValue s) (userAgent s) (fs s)
    (mimeGuess s) l.

Definition withRefreshToken (s : State) (t : option JValue) : State :=
  mkState (server s) (sent s) (apiToken s) t (userAgent s) (fs s) (mimeGuess s)
    (fsCalls s).

(** The client together with the basic credentials of its HTTP session
    ([Session.auth]).  The HTTP library adds them to the requests it sends;
    the requests recorded in [sent] do not show them. *)
Record Client := mkClient {
  net : State;
  sessionAuth : option (string * string)
}.

(** ** Exceptions and the monad *)

Inductive Exn :=
| RequestFailedError
| RuntimeError
| ValueError
| NetworkRequestError (response : NetworkResponse)
| ZeroDivisionError
| FileNotFoundError
| FileExistsError
| NotADirectoryError
| IsADirectoryError
| GuessFailed
| RecursionError
| KeyError
| OSError.

Inductive Result (A : Type) :=
| Ok (a : A)
| Raise (e : Exn).
Arguments Ok {A} a.
Arguments Raise {A} e.

Definition M (A : Type) : Type := State → Result A * State.

Definition ret {A} (a : A) : M A := fun s => (Ok a, s).

Definition raise {A} (e : Exn) : M A := fun s => (Raise e, s).

Definition bind {A B} (m : M A) (k : A → M B) : M B :=
  fun s =>
    match m s with
    | (Ok a, s') => k a s'
    | (Raise e, s') => (Raise e, s')
    end.

Notation "x <- m ;; k" := (bind m (fun x => k))
  (at level 100, m at next level, right associativity).
Notation "m ;;; k" := (bind m (fun _ => k))
  (at level 100, right associativity).

(** Reading a component of the state, and replacing the state. *)
Definition gets {A} (f : State → A) : M A := fun s => (Ok (f s), s).

Definition modify (f : State → State) : M unit := fun s => (Ok tt, f s).

(** A pure step that may raise. *)
Definition lift {A} (r : Result A) : M A := fun s => (r, s).

(** A call that changes the disk: the call is recorded, and the disk is
    the one the call leaves when it does not raise. *)
Definition fsCall (c : FsCall)
    (run : gmap Path Node → Result (gmap Path Node)) : M unit :=
  modify (fun s => withFsCalls s (fsCalls s ++ [c])) ;;;
  f <- gets fs ;;
  f <- lift (run f) ;;
  modify (fun s => withFs s f).

(** [for x in l: body(x)] *)
Fixpoint forEach {A} (l : list A) (body : A → M unit) : M unit :=
  match l with
  | [] => ret tt
  | x :: l' => body x ;;; forEach l' body
  end.

(** [range(n)] *)
Definition range (n : Z) : list Z := map Z.of_nat (seq 0 (Z.to_nat n)).

(** One call of the HTTP library: the server sees the requests sent so far,
    and the request is recorded. *)
Definition send (q : Request) (s : State) : Outcome * State :=
  (server s (sent s) q, withSent s (sent s ++ [q])).

(** ** requests_manager.py *)

Module RequestsManager.

Definition MAX_RETRY_COUNT : Z := 3.

(** [genericRequest]: the [try] is the call of [Session.request]; the
    [except] branch calls the function again while
    [retryCount < MAX_RETRY_COUNT] and raises [RequestFailedError]
    otherwise. *)
Equations? genericRequest (requestType : RequestType.t) (endpoint : string)
    (headers : option (gmap string JValue)) (data : Data)
    (files : option (gmap string FilePart)) (retryCount : Z) (s : State)
    : Result NetworkResponse * State
    by wf (Z.to_nat (MAX_RETRY_COUNT - retryCount)) lt :=
  genericRequest requestType endpoint headers data files retryCount s
    with send (mkRequest requestType endpoint headers data None files) s => {
    | (Responded r, s1) => (Ok r, s1);
    | (Raised, s1) with Z_lt_dec retryCount MAX_RETRY_COUNT => {
      | left _ =>
          genericRequest requestType endpoint headers data files (retryCount + 1) s1;
      | right _ => (Raise RequestFailedError, s1) } }.
Proof. unfold MAX_RETRY_COUNT in *. lia. Qed.

(** [get]: as [genericRequest], on [Session.get] with its [json] argument. *)
Equations? get (endpoint : string) (headers : option (gmap string JValue))
    (data : Data) (jsonObject : option (gmap string JValue)) (retryCount : Z)
    (s : State) : Result NetworkResponse * State
    by wf (Z.to_nat (MAX_RETRY_COUNT - retryCount)) lt :=
  get endpoint headers data jsonObject retryCount s
    with send (mkRequest RequestType.get endpoint headers data jsonObject None) s => {
    | (Responded r, s1) => (Ok r, s1);
    | (Raised, s1) with Z_lt_dec retryCount MAX_RETRY_COUNT => {
      | left _ => get endpoint headers data jsonObject (retryCount + 1) s1;
      | right _ => (Raise RequestFailedError, s1) } }.
Proof. unfold MAX_RETRY_COUNT in *. lia. Qed.

(** [post]: as [genericRequest], on [Session.post] with its [json] argument. *)
Equations? post (endpoint : string) (headers : option (gmap string JValue))
    (data : Data) (jsonObject : option (gmap string JValue)) (retryCount : Z)
    (s : State) : Result NetworkResponse * State
    by wf (Z.to_nat (MAX_RETRY_COUNT - retryCount)) lt :=
  post endpoint headers data jsonObject retryCount s
    with send (mkRequest RequestType.post endpoint headers data jsonObject None) s => {
    | (Responded r, s1) => (Ok r, s1);
    | (Raised, s1) with Z_lt_dec retryCount MAX_RETRY_COUNT => {
      | left _ => post endpoint headers data jsonObject (retryCount + 1) s1;
      | right _ => (Raise RequestFailedError, s1) } }.
Proof. unfold MAX_RETRY_COUNT in *. lia. Qed.

(** [isAuthSet] *)
Definition isAuthSet (c : Client) : bool :=
  match sessionAuth c with Some _ => true | None => false end.

(** [setAuth] *)
Definition setAuth (username password : string) (c : Client) : Client :=
  mkClient (net c) (Some (username, password)).

(** [reset] *)
Definition reset (c : Client) : Client := mkClient (net c) None.

End RequestsManager.


(** ** The file system, as [pathlib] and [open] use it *)

Module Fs.

(** [Path.is_dir()] *)
Definition is_dir (f : gmap Path Node) (p : Path) : bool :=
  match p with
  | [] => true
  | _ => match f !! p with Some Dir => true | _ => false end
  end.

(** [Path.exists()] *)
Definition exists_ (f : gmap Path Node) (p : Path) : bool :=
  match p with
  | [] => true
  | _ => match f !! p with Some _ => true | None => false end
  end.

(** [Path.parent] *)
Definition parent (p : Path) : Path := removelast p.

(** [Path.name] *)
Definition name (p : Path) : string := List.last p "".

(** [Path.unlink(missing_ok = True)] on something that is not a directory. *)
Definition unlink (f : gmap Path Node) (p : Path) : gmap Path Node :=
  delete p f.

(** [Path.mkdir(parents = True, exist_ok = True)] on the path
    [done ++ todo], whose part [done] is known to be a directory: every
    missing directory on the way is created, a directory that is there is
    kept, and a regular file on the way makes the call raise. *)
Fixpoint mkdirFrom (f : gmap Path Node) (done : Path) (todo : list string)
    : Result (gmap Path Node) :=
  match todo with
  | [] => Ok f
  | c :: todo' =>
      let p := done ++ [c] in
      match f !! p with
      | Some Dir => mkdirFrom f p todo'
      | Some (File _) =>
          Raise (match todo' with [] => FileExistsError | _ => NotADirectoryError end)
      | None => mkdirFrom (<[p := Dir]> f) p todo'
      end
  end.

Definition mkdir (f : gmap Path Node) (p : Path) : Result (gmap Path Node) :=
  mkdirFrom f [] p.

(** The error of a system call that finds nothing at a path: the
    directories [todo] that lead to it are walked from [done], and a regular
    file on the way is [NotADirectoryError] where a missing entry is
    [FileNotFoundError]. *)
Fixpoint noEntryFrom (f : gmap Path Node) (done : Path) (todo : list string)
    : Exn :=
  match todo with
  | [] => FileNotFoundError
  | c :: todo' =>
      let p := done ++ [c] in
      match f !! p with
      | Some Dir => noEntryFrom f p todo'
      | Some (File _) => NotADirectoryError
      | None => FileNotFoundError
      end
  end.

Definition noEntry (f : gmap Path Node) (p : Path) : Exn :=
  noEntryFrom f [] (parent p).

(** [open(p, "wb")] followed by [write(c)] and the closing of the file. *)
Definition write (f : gmap Path Node) (p : Path) (c : bytes)
    : Result (gmap Path Node) :=
  if is_dir f p then Raise IsADirectoryError
  else if is_dir f (parent p) then Ok (<[p := File c]> f)
  else Raise (noEntry f p).

(** [Path.lstat().st_size]; the size of a directory entry depends on the
    platform, 4096 stands for it.  A path with no entry raises the error of
    the walk to it: [NotADirectoryError] below a regular file,
    [FileNotFoundError] otherwise. *)
Definition st_size (f : gmap Path Node) (p : Path) : Result Z :=
  match p with
  | [] => Ok 4096
  | _ => match f !! p with
         | Some (File c) => Ok (Z.of_nat (length c))
         | Some Dir => Ok 4096
         | None => Raise (noEntry f p)
         end
  end.

(** [open(p, "rb")], [seek(start)], [read(n)] *)
Definition read (f : gmap Path Node) (p : Path) (start n : Z) : Result bytes :=
  match p with
  | [] => Raise IsADirectoryError
  | _ => match f !! p with
         | Some (File c) => Ok (take (Z.to_nat n) (drop (Z.to_nat start) c))
         | Some Dir => Raise IsADirectoryError
         | None => Raise (noEntry f p)
         end
  end.

End Fs.

(** ** network_manager_base.py *)

Module NetworkManagerBase.

Definition MAX_RETRY_COUNT : Z := 3.

Definition loginEndpoint : string := "user/login".
Definition refreshEndpoint : string := "user/refresh".
Definition apiTokenHeaderField : string := "api-token".
Definition apiTokenKey : string := "token".
Definition refreshTokenKey : string := "refresh_token".

(** [_requestHeader]: a new dict at every call, with the access token the
    client holds at that moment. *)
Definition _requestHeader (s : State) : gmap string JValue :=
  let header : gmap string JValue :=
    <["X-User-Agent" := JStr (userAgent s)]>
    (<["cache-control" := JStr "no-cache"]>
    (<["Connection" := JStr "keep-alive"]>
    (<["Content-Length" := JStr "0"]>
    (<["Accept-Encoding" := JStr "gzip, deflate"]>
    (<["Cache-Control" := JStr "no-cache"]>
    (<["Accept" := JStr "*/*"]>
    (<["Content-Type" := JStr "application/json"]> ∅))))))) in
  match apiToken s with
  | Some t => <[apiTokenHeaderField := t]> header
  | None => header
  end.

(** [refreshToken] *)
Definition refreshToken : M NetworkResponse :=
  headers <- gets _requestHeader ;;
  refresh <- gets refreshTokenValue ;;
  let headers :=
    match refresh with
    | Some t => <[apiTokenHeaderField := t]> headers
    | None => headers
    end in
  networkResponse <-
    RequestsManager.genericRequest RequestType.post refreshEndpoint
      (Some headers) NoData None 0 ;;
  match json networkResponse !! apiTokenKey with
  | Some v => modify (fun s => withApiToken s (pyOptional v))
  | None => ret tt
  end ;;;
  ret networkResponse.

(** [shouldRetry] *)
Definition shouldRetry (retryCount : Z) (response : NetworkResponse) : M bool :=
  if retryCount =? MAX_RETRY_COUNT then ret false
  else if isUnauthorized response then
    refreshTokenResponse <- refreshToken ;;
    ret (negb (hasFailed refreshTokenResponse))
  else
    ret ((statusCode response =? HttpCode.internalServerError)
         || (statusCode response =? HttpCode.serviceUnavailable)).

(** The recursive operations below call themselves once per retry; [fuel]
    is the depth of calls the interpreter still allows, and running out of
    it is Python's [RecursionError]. *)

(** [genericDownload] *)
Fixpoint genericDownload (fuel : nat) (endpoint : string) (destination : Path)
    (parameters : option (gmap string JValue)) (retryCount : Z)
    : M NetworkResponse :=
  match fuel with
  | O => raise RecursionError
  | S fuel' =>
      headers <- gets _requestHeader ;;
      let parameters := default ∅ parameters in
      response <-
        RequestsManager.get endpoint (Some headers) NoData (Some parameters) 0 ;;
      again <- shouldRetry retryCount response ;;
      if again : bool then
        genericDownload fuel' endpoint destination (Some parameters) (retryCount + 1)
      else
        (if ok response then
           isDir <- gets (fun s => Fs.is_dir (fs s) destination) ;;
           if isDir : bool then raise RuntimeError
           else
             there <- gets (fun s => Fs.exists_ (fs s) destination) ;;
             (if there : bool
              then fsCall (PathUnlink destination)
                     (fun f => Ok (Fs.unlink f destination))
              else ret tt) ;;;
             fsCall (PathMkdir (Fs.parent destination))
               (fun f => Fs.mkdir f (Fs.parent destination)) ;;;
             fsCall (OpenWrite destination (content response))
               (fun f => Fs.write f destination (content response))
         else ret tt) ;;;
        ret response
  end.

(** [genericUpload] *)
Fixpoint genericUpload (fuel : nat) (endpoint : string)
    (files : option (gmap string FilePart))
    (parameters : option (gmap string JValue)) (retryCount : Z)
    : M NetworkResponse :=
  match fuel with
  | O => raise RecursionError
  | S fuel' =>
      headers <- gets _requestHeader ;;
      let headers := delete "Content-Type" headers in
      let parameters := default ∅ parameters in
      networkResponse <-
        RequestsManager.genericRequest RequestType.post endpoint (Some headers)
          (FormFields parameters) files 0 ;;
      again <- shouldRetry retryCount networkResponse ;;
      if again : bool then
        genericUpload fuel' endpoint files (Some parameters) (retryCount + 1)
      else ret networkResponse
  end.

(** [genericDelete] *)
Definition genericDelete (endpoint : string) : M NetworkResponse :=
  headers <- gets _requestHeader ;;
  RequestsManager.genericRequest RequestType.delete endpoint (Some headers)
    NoData None 0.

(** [genericJSONRequest] *)
Fixpoint genericJSONRequest (fuel : nat) (endpoint : string)
    (requestType : RequestType.t) (parameters : option (gmap string JValue))
    (headers : option (gmap string JValue)) (retryCount : Z)
    : M NetworkResponse :=
  match fuel with
  | O => raise RecursionError
  | S fuel' =>
      headers <-
        match headers with
        | None => gets _requestHeader
        | Some h => ret h
        end ;;
      let parameters := default ∅ parameters in
      networkResponse <-
        RequestsManager.genericRequest requestType endpoint (Some headers)
          (JsonText parameters) None 0 ;;
      again <- shouldRetry retryCount networkResponse ;;
      if again : bool then
        genericJSONRequest fuel' endpoint requestType (Some parameters)
          (Some headers) (retryCount + 1)
      else ret networkResponse
  end.

(** [_authenticate] *)
Definition _authenticate : M NetworkResponse :=
  headers <- gets _requestHeader ;;
  response <- RequestsManager.post loginEndpoint (Some headers) NoData None 0 ;;
  match json response !! apiTokenKey with
  | Some v => modify (fun s => withApiToken s (pyOptional v))
  | None => ret tt
  end ;;;
  match json response !! refreshTokenKey with
  | Some v => modify (fun s => withRefreshToken s (pyOptional v))
  | None => ret tt
  end ;;;
  ret response.

(** [authenticate] *)
Definition authenticate (username password : string) (c : Client)
    : Result NetworkResponse * Client :=
  let c := RequestsManager.setAuth username password c in
  let (response, s) := _authenticate (net c) in
  (response, mkClient s (sessionAuth c)).

(** [authenticateWithRefreshToken] *)
Definition authenticateWithRefreshToken (token : string) : M NetworkResponse :=
  modify (fun s => withRefreshToken s (Some (JStr token))) ;;;
  refreshToken.

(** [reset] *)
Definition reset (c : Client) : Client :=
  let s := withApiToken (net c) None in
  let s := withRefreshToken s None in
  RequestsManager.reset (mkClient s (sessionAuth c)).

End NetworkManagerBase.

(** ** chunk_upload_session.py *)

Module ChunkUploadSession.

Definition MAX_CHUNK_SIZE : Z := 128 * 1024 * 1024.

Record t := mk {
  chunkSize : Z;
  filePath : Path;
  fileSize : Z;
  mimeType : string
}.

(** [_loadChunk] *)
Definition _loadChunk (filePath : Path) (start chunkSize : Z) : M bytes :=
  f <- gets fs ;;
  lift (Fs.read f filePath start chunkSize).

(** [__init__] *)
Definition __init__ (chunkSize : Z) (filePath : Path) (mimeType : option string)
    : M t :=
  if (chunkSize <=? 0) || (chunkSize >? MAX_CHUNK_SIZE) then raise ValueError
  else
    mimeType <-
      match mimeType with
      | Some m => ret m
      | None =>
          guess <- gets mimeGuess ;;
          match guess filePath with
          | Some m => ret m
          | None => raise GuessFailed
          end
      end ;;
    f <- gets fs ;;
    fileSize <- lift (Fs.st_size f filePath) ;;
    ret (mk chunkSize filePath fileSize mimeType).

(** [__start] *)
Definition __start (fuel : nat) (self : t) : M string :=
  let parameters : gmap string JValue := {["size" := JNum (fileSize self)]} in
  response <-
    NetworkManagerBase.genericJSONRequest fuel "upload/start" RequestType.post
      (Some parameters) None 0 ;;
  if hasFailed response then raise (NetworkRequestError response)
  else
    match json response !! "id" with
    | Some (JStr uploadId) => ret uploadId
    | _ => raise ValueError
    end.

(** [__uploadChunk] *)
Definition __uploadChunk (fuel : nat) (self : t) (uploadId : string)
    (start end_ : Z) : M unit :=
  chunk <- _loadChunk (filePath self) start (chunkSize self) ;;
  let files : gmap string FilePart :=
    {["file" := mkFilePart (Fs.name (filePath self)) chunk (mimeType self)]} in
  let parameters : gmap string JValue :=
    <["end" := JNum (end_ - 1)]>
    (<["start" := JNum start]>
    (<["id" := JStr uploadId]> ∅)) in
  response <-
    NetworkManagerBase.genericUpload fuel "upload/chunk" (Some files)
      (Some parameters) 0 ;;
  if hasFailed response then raise (NetworkRequestError response)
  else ret tt.

(** The number of chunks [run] computes. *)
Definition chunkCount (self : t) : Z :=
  let chunkCount := fileSize self / chunkSize self in
  if negb (fileSize self mod chunkSize self =? 0) then chunkCount + 1
  else chunkCount.

(** [run] *)
Definition run (fuel : nat) (self : t) : M string :=
  uploadId <- __start fuel self ;;
  (if chunkSize self =? 0 then raise ZeroDivisionError else ret tt) ;;;
  forEach (range (chunkCount self))
    (fun i =>
       let start := i * chunkSize self in
       let end_ := Z.min (start + chunkSize self) (fileSize self) in
       __uploadChunk fuel self uploadId start end_) ;;;
  ret uploadId.

End ChunkUploadSession.

(** ** A bounded loop for the transport's retries

    The three transport functions are one loop: send the request, and on an
    exception send it again, at most [n] more times. *)

Fixpoint sendUpTo (n : nat) (q : Request) (s : State)
    : Result NetworkResponse * State :=
  match send q s with
  | (Responded r, s1) => (Ok r, s1)
  | (Raised, s1) =>
      match n with
      | O => (Raise RequestFailedError, s1)
      | S n' => sendUpTo n' q s1
      end
  end.

(** The retries a transport call at [retryCount] still has. *)
Definition retriesLeft (retryCount : Z) : nat :=
  Z.to_nat (RequestsManager.MAX_RETRY_COUNT - retryCount).

(** Two states that differ at most in the requests sent and in the access
    token: what the network operations may change. *)
Definition netOnly (s s' : State) : Prop :=
  server s' = server s
  ∧ refreshTokenValue s' = refreshTokenValue s
  ∧ userAgent s' = userAgent s
  ∧ fs s' = fs s
  ∧ mimeGuess s' = mimeGuess s
  ∧ fsCalls s' = fsCalls s.

(** The state after a refresh whose response is [r]. *)
Definition refreshed (r : NetworkResponse) (s : State) : State :=
  match json r !! NetworkManagerBase.apiTokenKey with
  | Some v => withApiToken s (pyOptional v)
  | None => s
  end.

(** The request [refreshToken] sends from state [s]: the client's header with
    the refresh token, when there is one, in the place of the access token. *)
Definition refreshRequest (s : State) : Request :=
  let headers := NetworkManagerBase._requestHeader s in
  mkRequest RequestType.post NetworkManagerBase.refreshEndpoint
    (Some match refreshTokenValue s with
          | Some t => <[NetworkManagerBase.apiTokenHeaderField := t]> headers
          | None => headers
          end)
    NoData None None.

(** The access token a request carries in its headers. *)
Definition tokenOf (q : Request) : option JValue :=
  match headers q with
  | Some h => h !! NetworkManagerBase.apiTokenHeaderField
  | None => None
  end.

(** ** The retry policy in the spec's words

    "After receiving a response it consults shouldRetry(retryCount, response)
    and re-issues the request when it returns true": [attempt] is the
    request, [finish] what the operation does with the response it keeps. *)
Fixpoint retrying (fuel : nat) (attempt : M NetworkResponse)
    (finish : NetworkResponse → M NetworkResponse) (retryCount : Z)
    : M NetworkResponse :=
  match fuel with
  | O => raise RecursionError
  | S fuel' =>
      response <- attempt ;;
      again <- NetworkManagerBase.shouldRetry retryCount response ;;
      if again : bool then retrying fuel' attempt finish (retryCount + 1)
      else finish response
  end.

(** The requests of the three operations that retry. *)
Definition jsonAttempt (endpoint : string) (requestType : RequestType.t)
    (parameters headers : gmap string JValue) : M NetworkResponse :=
  RequestsManager.genericRequest requestType endpoint (Some headers)
    (JsonText parameters) None 0.

Definition uploadAttempt (endpoint : string)
    (files : option (gmap string FilePart)) (parameters : gmap string JValue)
    : M NetworkResponse :=
  headers <- gets NetworkManagerBase._requestHeader ;;
  RequestsManager.genericRequest RequestType.post endpoint
    (Some (delete "Content-Type" headers)) (FormFields parameters) files 0.

Definition downloadAttempt (endpoint : string) (parameters : gmap string JValue)
    : M NetworkResponse :=
  headers <- gets NetworkManagerBase._requestHeader ;;
  RequestsManager.get endpoint (Some headers) NoData (Some parameters) 0.

(** The state once the disk call [c] is recorded, and once it has left the
    disk [f]. *)
Definition recorded (c : FsCall) (s : State) : State :=
  withFsCalls s (fsCalls s ++ [c]).

Definition did (c : FsCall) (f : gmap Path Node) (s : State) : State :=
  withFs (recorded c s) f.

(** What [genericDownload] does with the response it keeps. *)
Definition saveResponse (destination : Path) (response : NetworkResponse)
    : M NetworkResponse :=
  (if ok response then
     isDir <- gets (fun s => Fs.is_dir (fs s) destination) ;;
     if isDir : bool then raise RuntimeError
     else
       there <- gets (fun s => Fs.exists_ (fs s) destination) ;;
       (if there : bool
        then fsCall (PathUnlink destination)
               (fun f => Ok (Fs.unlink f destination))
        else ret tt) ;;;
       fsCall (PathMkdir (Fs.parent destination))
         (fun f => Fs.mkdir f (Fs.parent destination)) ;;;
       fsCall (OpenWrite destination (content response))
         (fun f => Fs.write f destination (content response))
   else ret tt) ;;;
  ret response.

(** The headers a call of [genericJSONRequest] uses: its argument, or the
    client's header of the moment. *)
Definition jsonHeaders (headers : option (gmap string JValue)) (s : State)
    : gmap string JValue :=
  match headers with
  | Some h => h
  | None => NetworkManagerBase._requestHeader s
  end.

(** ** Chunk ranges

    The half-open ranges [(start, end)] of the loop of [run], in the order of
    the loop. *)
Definition chunkRanges (self : ChunkUploadSession.t) : list (Z * Z) :=
  map (fun i =>
         let start := i * ChunkUploadSession.chunkSize self in
         (start,
          Z.min (start + ChunkUploadSession.chunkSize self)
                (ChunkUploadSession.fileSize self)))
      (range (ChunkUploadSession.chunkCount self)).

(** [tiles a l b]: the ranges of [l], in their order, are not empty and each
    starts where the one before ends, from [a] to [b]. *)
Fixpoint tiles (a : Z) (l : list (Z * Z)) (b : Z) : Prop :=
  match l with
  | [] => a = b
  | (start, end_) :: l' => start = a ∧ start < end_ ∧ tiles end_ l' b
  end.

(** The first request of [run], and the request of one chunk. *)
Definition startRequest (self : ChunkUploadSession.t) (s : State) : Request :=
  mkRequest RequestType.post "upload/start"
    (Some (NetworkManagerBase._requestHeader s))
    (JsonText {["size" := JNum (ChunkUploadSession.fileSize self)]})
    None None.

Definition chunkRequest (self : ChunkUploadSession.t) (s : State)
    (uploadId : string) (contents : bytes) (r : Z * Z) : Request :=
  mkRequest RequestType.post "upload/chunk"
    (Some (delete "Content-Type" (NetworkManagerBase._requestHeader s)))
    (FormFields
       (<["end" := JNum (r.2 - 1)]>
       (<["start" := JNum r.1]>
       (<["id" := JStr uploadId]> ∅))))
    None
    (Some {["file" :=
             mkFilePart (Fs.name (ChunkUploadSession.filePath self))
               (take (Z.to_nat (ChunkUploadSession.chunkSize self))
                  (drop (Z.to_nat r.1) contents))
               (ChunkUploadSession.mimeType self)]}).

(** A server that answers every request with a response that is [ok], and
    the start of an upload with the id [uploadId]. *)
Definition accepting (uploadId : string) (srv : Server) : Prop :=
  ∀ hist q, ∃ r,
    srv hist q = Responded r ∧ ok r = true
    ∧ (endpoint q = "upload/start" → json r !! "id" = Some (JStr uploadId)).

(** From [s] to [s'] requests were only added, and all of them satisfy [P]. *)
Definition sendsOnly (P : Request → Prop) (s s' : State) : Prop :=
  ∃ l, sent s' = sent s ++ l ∧ Forall P l.


(** ** The requests of the client's operations *)

(** The request of [_authenticate] from state [s]. *)
Definition loginRequest (s : State) : Request :=
  mkRequest RequestType.post NetworkManagerBase.loginEndpoint
    (Some (NetworkManagerBase._requestHeader s)) NoData None None.

(** The request of [genericJSONRequest] with the headers [h]. *)
Definition jsonRequest (ep : string) (rt : RequestType.t)
    (p h : gmap string JValue) : Request :=
  mkRequest rt ep (Some h) (JsonText p) None None.

(** The request of [genericUpload] from state [s]. *)
Definition uploadRequest (ep : string) (files : option (gmap string FilePart))
    (p : gmap string JValue) (s : State) : Request :=
  mkRequest RequestType.post ep
    (Some (delete "Content-Type" (NetworkManagerBase._requestHeader s)))
    (FormFields p) None files.

(** The request of [genericDownload] from state [s]. *)
Definition downloadRequest (ep : string) (p : gmap string JValue) (s : State)
    : Request :=
  mkRequest RequestType.get ep (Some (NetworkManagerBase._requestHeader s))
    NoData (Some p) None.

(** The request of [genericDelete] from state [s]. *)
Definition deleteRequest (ep : string) (s : State) : Request :=
  mkRequest RequestType.delete ep (Some (NetworkManagerBase._requestHeader s))
    NoData None None.

(** The statuses [shouldRetry] answers with a retry. *)
Definition serverError (r : NetworkResponse) : Prop :=
  statusCode r = HttpCode.internalServerError
  ∨ statusCode r = HttpCode.serviceUnavailable.

(** The statuses [shouldRetry] never acts on. *)
Definition final (r : NetworkResponse) : Prop :=
  statusCode r ≠ HttpCode.unauthorized
  ∧ statusCode r ≠ HttpCode.internalServerError
  ∧ statusCode r ≠ HttpCode.serviceUnavailable.

(** A request without a "Content-Type" header. *)
Definition noContentType (q : Request) : Prop :=
  match headers q with
  | Some h => h !! "Content-Type" = None
  | None => True
  end.

(** The first [k] attempts of [q] from [s] raise. *)
Definition raisesFirst (k : nat) (q : Request) (s : State) : Prop :=
  ∀ i, (i < k)%nat → server s (sent s ++ repeat q i) q = Raised.

(** A server whose answer depends on the request only. *)
Definition answers (answer : Request → Outcome) (srv : Server) : Prop :=
  ∀ hist q, srv hist q = answer q.

(** The two ways a transport call with [n] retries left ends: a response at
    attempt [k + 1] after [k] exceptions, or [RequestFailedError] after
    [n + 1] exceptions. *)
Definition endsAs (n : nat) (q : Request) (s : State)
    (out : Result NetworkResponse * State) : Prop :=
  (∃ k r, (k ≤ n)%nat ∧ raisesFirst k q s
          ∧ server s (sent s ++ repeat q k) q = Responded r
          ∧ out = (Ok r, withSent s (sent s ++ repeat q (S k))))
  ∨ (raisesFirst (S n) q s
     ∧ out = (Raise RequestFailedError, withSent s (sent s ++ repeat q (S n)))).

(** The state after a login whose response is [r]. *)
Definition loggedIn (r : NetworkResponse) (s : State) : State :=
  let s :=
    match json r !! NetworkManagerBase.apiTokenKey with
    | Some v => withApiToken s (pyOptional v)
    | None => s
    end in
  match json r !! NetworkManagerBase.refreshTokenKey with
  | Some v => withRefreshToken s (pyOptional v)
  | None => s
  end.

(** ** coretex_format.py: [toPoly] *)

Module CoretexFormat.

(** [toPoly]: the indices are [range(0, len(segmentation) - 1, 2)], the even
    numbers below [len - 1]. *)
Definition toPoly {A} (segmentation : list A) : list (A * A) :=
  omap (fun index =>
          match segmentation !! index, segmentation !! S index with
          | Some x, Some y => Some (x, y)
          | _, _ => None
          end)
       (List.filter Nat.even (seq 0 (length segmentation - 1))).

(** The values of a list of points, one after the other. *)
Definition flatten {A} (points : list (A * A)) : list A :=
  concat (map (fun p : A * A => [p.1; p.2]) points).

End CoretexFormat.

(** ** log_severity.py *)

(** The levels of Python's [logging] module. *)
Module logging.
Definition CRITICAL : Z := 50.
Definition FATAL : Z := CRITICAL.
Definition ERROR : Z := 40.
Definition WARNING : Z := 30.
Definition INFO : Z := 20.
Definition DEBUG : Z := 10.
End logging.

Module LogSeverity.

Inductive t := fatal | error | warning | info | debug.

(** The value of the [IntEnum] member. *)
Definition value (s : t) : Z :=
  match s with
  | fatal => 1
  | error => 2
  | warning => 3
  | info => 4
  | debug => 5
  end.

(** [color] *)
Definition color (s : t) : string :=
  match s with
  | fatal => "red"
  | error => "red"
  | warning => "yellow"
  | info => "white"
  | debug => "yellow"
  end.

(** [stdSeverity] *)
Definition stdSeverity (s : t) : Z :=
  match s with
  | fatal => logging.FATAL
  | error => logging.ERROR
  | warning => logging.WARNING
  | info => logging.INFO
  | debug => logging.DEBUG
  end.

(** [fromStd] *)
Definition fromStd (logLevel : Z) : Result t :=
  if logLevel =? logging.FATAL then Ok fatal
  else if logLevel =? logging.ERROR then Ok error
  else if logLevel =? logging.WARNING then Ok warning
  else if logLevel =? logging.INFO then Ok info
  else if logLevel =? logging.DEBUG then Ok debug
  else Raise ValueError.

End LogSeverity.

(** ** _configuration.py *)

Module Configuration.

(** The NUL byte and the sign that ends the name of a variable. *)
Definition NUL : Ascii.ascii := Ascii.zero.
Definition EQUALS : Ascii.ascii := Ascii.ascii_of_nat 61.

(** Whether the character [c] occurs in [s]. *)
Fixpoint contains (c : Ascii.ascii) (s : string) : bool :=
  match s with
  | EmptyString => false
  | String a s' => Ascii.eqb a c || contains c s'
  end.

(** [os.putenv], which [os.environ.__setitem__] calls before it stores the
    value (POSIX, Python 3.9 and later): a NUL byte in the name or in the
    value is refused when the arguments are converted, then a name with "="
    is refused, and [setenv] fails with EINVAL on the empty name. *)
Definition putenv (key value : string) : Result unit :=
  if contains NUL key || contains NUL value then Raise ValueError
  else if contains EQUALS key then Raise ValueError
  else if String.eqb key "" then Raise OSError
  else Ok tt.

(** [os.environ[key] = value] *)
Definition setitem (key value : string) (environ : gmap string string)
    : Result unit * gmap string string :=
  match putenv key value with
  | Ok _ => (Ok tt, <[key := value]> environ)
  | Raise e => (Raise e, environ)
  end.

(** [os.environ[key]] *)
Definition getitem (key : string) (environ : gmap string string)
    : Result string :=
  match environ !! key with
  | Some v => Ok v
  | None => Raise KeyError
  end.

(** [getEnvVar]; [os.environ] is the map of the variables that are set,
    names and values being the byte strings the system holds. *)
Definition getEnvVar (key default : string) (environ : gmap string string)
    : Result string * gmap string string :=
  let set :=
    match environ !! key with
    | None => setitem key default environ
    | Some _ => (Ok tt, environ)
    end in
  match set with
  | (Ok _, environ) => (getitem key environ, environ)
  | (Raise e, environ) => (Raise e, environ)
  end.

(** The keys of [DEFAULT_CONFIG], in the order of the dict. *)
Definition requiredKeys : list string :=
  ["username"; "password"; "token"; "refreshToken"; "serverUrl";
   "storagePath"; "nodeName"; "organizationID"; "image"].

(** [_verifyConfiguration] *)
Definition _verifyConfiguration (config : gmap string JValue) : bool :=
  forallb (fun key => bool_decide (is_Some (config !! key))) requiredKeys.

End Configuration.

(** ** Concrete clients and servers *)

Module Examples.

(** A client with nothing sent yet. *)
Definition client (srv : Server) (token refresh : option JValue)
    (disk : gmap Path Node) : State :=
  mkState srv [] token refresh "coretexpylib;1.3;python;3.9" disk
    (fun _ => Some "application/octet-stream") [].

(** The HTTP library raises at every call. *)
Definition unreachable : Server := fun _ _ => Raised.

(** Every request gets the same answer. *)
Definition always (r : NetworkResponse) : Server := fun _ _ => Responded r.

Definition r200 : NetworkResponse := mkResponse 200 [] ∅.
Definition r401 : NetworkResponse := mkResponse 401 [] ∅.
Definition r500 : NetworkResponse := mkResponse 500 [] ∅.

Definition hasToken (t : string) (q : Request) : bool :=
  match tokenOf q with
  | Some (JStr t') => String.eqb t t'
  | _ => false
  end.

(** A server for which the access token "access-1" has expired: the refresh
    endpoint gives "access-2" for the refresh token "refresh-1", and every
    other endpoint answers 200 to "access-2" and 401 to anything else. *)
Definition expiring : Server := fun _ q =>
  if String.eqb (endpoint q) "user/refresh" then
    if hasToken "refresh-1" q
    then Responded (mkResponse 200 [] {["token" := JStr "access-2"]})
    else Responded r401
  else if hasToken "access-2" q then Responded r200
  else Responded r401.

(** The client that still holds the expired token. *)
Definition expired : State :=
  client expiring (Some (JStr "access-1")) (Some (JStr "refresh-1")) ∅.

(** A disk with one file of five bytes, and one directory. *)
Definition disk : gmap Path Node :=
  <[["data"; "sample.bin"] := File [Byte.x63; Byte.x6f; Byte.x72; Byte.x65; Byte.x78]]>
  (<[["data"] := Dir]> ∅).

(** A server that answers every request with 200 and the body [body]. *)
Definition serving (body : bytes) : Server :=
  always (mkResponse 200 body ∅).

Definition payload : bytes := [Byte.x7a; Byte.x69; Byte.x70].

(** A server that accepts every upload request, with the id "upload-7". *)
Definition uploads : Server :=
  always (mkResponse 200 [] {["id" := JStr "upload-7"]}).

(** A session on the five bytes of [disk], two bytes a chunk. *)
Definition session : ChunkUploadSession.t :=
  ChunkUploadSession.mk 2 ["data"; "sample.bin"] 5 "application/octet-stream".

(** A disk with an empty file, and the session on it. *)
Definition emptyDisk : gmap Path Node := <[["empty.bin"] := File []]> ∅.

Definition emptySession : ChunkUploadSession.t :=
  ChunkUploadSession.mk 1024 ["empty.bin"] 0 "application/octet-stream".

(** The HTTP library raises until [k] requests were sent, then answers [r]. *)
Definition flaky (k : nat) (r : NetworkResponse) : Server := fun hist _ =>
  if (length hist <? k)%nat then Raised else Responded r.

(** The login succeeds with both tokens. *)
Definition loginOk : NetworkResponse :=
  mkResponse 200 []
    (<["refresh_token" := JStr "refresh-1"]> {["token" := JStr "access-1"]}).

Definition r404 : NetworkResponse := mkResponse 404 [] ∅.

End Examples.

Ltac run_monad := cbv beta iota zeta delta [bind gets ret raise modify lift fsCall].

(** * Theorems *)

(** ** The transport *)

Section Transport.

Import RequestsManager.

Lemma retriesLeft_step rc :
  rc < MAX_RETRY_COUNT → retriesLeft rc = S (retriesLeft (rc + 1)).
Proof. unfold retriesLeft, MAX_RETRY_COUNT. lia. Qed.

Lemma retriesLeft_done rc :
  ¬ rc < MAX_RETRY_COUNT → retriesLeft rc = O.
Proof. unfold retriesLeft, MAX_RETRY_COUNT. lia. Qed.

Lemma genericRequest_loop rt ep h d f rc s :
  genericRequest rt ep h d f rc s
  = sendUpTo (retriesLeft rc) (mkRequest rt ep h d None f) s.
Proof.
  remember (retriesLeft rc) as n eqn:Hn.
  revert rc s Hn. induction n as [|n IH]; intros rc s Hn;
    simp genericRequest; simpl;
    destruct (server s (sent s) _) as [|r]; simpl; try reflexivity;
    destruct (Z_lt_dec rc MAX_RETRY_COUNT) as [Hlt|Hge]; simpl;
    try reflexivity.
  - rewrite (retriesLeft_step rc Hlt) in Hn. discriminate.
  - apply IH. rewrite (retriesLeft_step rc Hlt) in Hn. congruence.
  - rewrite (retriesLeft_done rc Hge) in Hn. discriminate.
Qed.

Lemma get_loop ep h d j rc s :
  get ep h d j rc s
  = sendUpTo (retriesLeft rc) (mkRequest RequestType.get ep h d j None) s.
Proof.
  remember (retriesLeft rc) as n eqn:Hn.
  revert rc s Hn. induction n as [|n IH]; intros rc s Hn;
    simp get; simpl;
    destruct (server s (sent s) _) as [|r]; simpl; try reflexivity;
    destruct (Z_lt_dec rc MAX_RETRY_COUNT) as [Hlt|Hge]; simpl;
    try reflexivity.
  - rewrite (retriesLeft_step rc Hlt) in Hn. discriminate.
  - apply IH. rewrite (retriesLeft_step rc Hlt) in Hn. congruence.
  - rewrite (retriesLeft_done rc Hge) in Hn. discriminate.
Qed.

Lemma post_loop ep h d j rc s :
  post ep h d j rc s
  = sendUpTo (retriesLeft rc) (mkRequest RequestType.post ep h d j None) s.
Proof.
  remember (retriesLeft rc) as n eqn:Hn.
  revert rc s Hn. induction n as [|n IH]; intros rc s Hn;
    simp post; simpl;
    destruct (server s (sent s) _) as [|r]; simpl; try reflexivity;
    destruct (Z_lt_dec rc MAX_RETRY_COUNT) as [Hlt|Hge]; simpl;
    try reflexivity.
  - rewrite (retriesLeft_step rc Hlt) in Hn. discriminate.
  - apply IH. rewrite (retriesLeft_step rc Hlt) in Hn. congruence.
  - rewrite (retriesLeft_done rc Hge) in Hn. discriminate.
Qed.

(** When every attempt raises, the loop sends the request [n + 1] times
    and raises. *)
Lemma sendUpTo_all_raise n q s :
  (∀ hist, server s hist q = Raised) →
  sendUpTo n q s
  = (Raise RequestFailedError, withSent s (sent s ++ repeat q (S n))).
Proof.
  revert s. induction n as [|n IH]; intros s Hraise; simpl.
  - rewrite Hraise. reflexivity.
  - rewrite Hraise. rewrite IH by (intros hist; apply Hraise).
    simpl. unfold withSent. simpl. rewrite <- app_assoc. reflexivity.
Qed.

(** When the first attempt gets a response there is no second one. *)
Lemma sendUpTo_responded n q s r :
  server s (sent s) q = Responded r →
  sendUpTo n q s = (Ok r, withSent s (sent s ++ [q])).
Proof. intros H. destruct n; simpl; rewrite H; reflexivity. Qed.

(** The loop sends the one request, between once and [n + 1] times, and
    touches nothing else. *)
Lemma sendUpTo_sent n q s :
  ∃ k, (1 ≤ k ≤ S n)%nat
       ∧ snd (sendUpTo n q s) = withSent s (sent s ++ repeat q k).
Proof.
  revert s. induction n as [|n IH]; intros s; simpl.
  - exists 1%nat. split; [lia|].
    destruct (server s (sent s) q); reflexivity.
  - destruct (server s (sent s) q) as [|r].
    + destruct (IH (withSent s (sent s ++ [q]))) as (k & Hk & E).
      exists (S k). split; [lia|]. rewrite E. simpl.
      unfold withSent. simpl. rewrite <- app_assoc. reflexivity.
    + exists 1%nat. split; [lia|]. reflexivity.
Qed.

End Transport.

(** ** What the network operations leave alone *)

Section Frames.

Import NetworkManagerBase.

Lemma netOnly_refl s : netOnly s s.
Proof. repeat split. Qed.

Lemma netOnly_trans s1 s2 s3 : netOnly s1 s2 → netOnly s2 s3 → netOnly s1 s3.
Proof.
  unfold netOnly.
  intros (A1 & A2 & A3 & A4 & A5 & A6) (B1 & B2 & B3 & B4 & B5 & B6).
  repeat split; congruence.
Qed.

Lemma sendUpTo_netOnly n q s : netOnly s (snd (sendUpTo n q s)).
Proof.
  destruct (sendUpTo_sent n q s) as (k & _ & E). rewrite E. repeat split.
Qed.

Lemma sendUpTo_apiToken n q s : apiToken (snd (sendUpTo n q s)) = apiToken s.
Proof.
  destruct (sendUpTo_sent n q s) as (k & _ & E). rewrite E. reflexivity.
Qed.

Lemma sendUpTo_server n q s : server (snd (sendUpTo n q s)) = server s.
Proof. apply sendUpTo_netOnly. Qed.

Lemma sendUpTo_fs n q s : fs (snd (sendUpTo n q s)) = fs s.
Proof. apply sendUpTo_netOnly. Qed.

(** [refreshToken] is one transport call of [refreshRequest], followed by the
    update of the access token. *)
Lemma refreshToken_eq s :
  refreshToken s
  = match sendUpTo 3 (refreshRequest s) s with
    | (Ok r, s1) => (Ok r, refreshed r s1)
    | (Raise e, s1) => (Raise e, s1)
    end.
Proof.
  unfold refreshToken. run_monad. rewrite genericRequest_loop.
  change (retriesLeft 0) with 3%nat. fold (refreshRequest s).
  destruct (sendUpTo 3 (refreshRequest s) s) as [[r|e] s1]; [|reflexivity].
  unfold refreshed. destruct (json r !! apiTokenKey); reflexivity.
Qed.

Lemma refreshToken_netOnly s : netOnly s (snd (refreshToken s)).
Proof.
  rewrite refreshToken_eq.
  pose proof (sendUpTo_netOnly 3 (refreshRequest s) s) as H.
  destruct (sendUpTo 3 (refreshRequest s) s) as [[r|e] s1]; simpl in *; [|exact H].
  unfold refreshed. destruct (json r !! apiTokenKey); [|exact H].
  destruct H as (A1 & A2 & A3 & A4 & A5 & A6). repeat split; assumption.
Qed.

Lemma shouldRetry_netOnly rc r s : netOnly s (snd (shouldRetry rc r s)).
Proof.
  unfold shouldRetry.
  destruct (rc =? MAX_RETRY_COUNT); [apply netOnly_refl|].
  destruct (isUnauthorized r); [|apply netOnly_refl].
  run_monad. pose proof (refreshToken_netOnly s) as H.
  destruct (refreshToken s) as [[rr|e] s1]; exact H.
Qed.

(** A response that is [ok] is never retried, and no refresh is sent. *)
Lemma shouldRetry_ok rc r s : ok r = true → shouldRetry rc r s = (Ok false, s).
Proof.
  intros Hok. unfold shouldRetry, ok, isUnauthorized, HttpCode.unauthorized,
    HttpCode.internalServerError, HttpCode.serviceUnavailable in *.
  destruct (rc =? MAX_RETRY_COUNT); [reflexivity|].
  destruct (statusCode r =? 401) eqn:E1; [lia|].
  destruct (statusCode r =? 500) eqn:E2; [lia|].
  destruct (statusCode r =? 503) eqn:E3; [lia|]. reflexivity.
Qed.

(** At the limit nothing is retried, and no refresh is sent. *)
Lemma shouldRetry_at_limit r s : shouldRetry MAX_RETRY_COUNT r s = (Ok false, s).
Proof. reflexivity. Qed.

End Frames.

(** ** The transport gives up after four attempts *)

Section TransportClaims.

Import RequestsManager.

Lemma sendUpTo_raises n q s e :
  fst (sendUpTo n q s) = Raise e → e = RequestFailedError.
Proof.
  revert s. induction n as [|n IH]; intros s; simpl;
    destruct (server s (sent s) q); simpl; try congruence. apply IH.
Qed.

(** C4: when the HTTP library raises at every attempt of a request,
    [genericRequest], [get] and [post] called at [retryCount] send the same
    request once and then once more for every count below 3, which from the
    default count 0 are exactly 4 attempts, and then raise
    [RequestFailedError]; nothing but the list of requests sent changes. *)
Theorem transport_gives_up_after_four_attempts
    (s : State) (rt : RequestType.t) (ep : string)
    (h : option (gmap string JValue)) (d : Data)
    (j : option (gmap string JValue)) (f : option (gmap string FilePart))
    (rc : Z) :
  (∀ hist q, endpoint q = ep → server s hist q = Raised) →
  let attempts := S (Z.to_nat (MAX_RETRY_COUNT - rc)) in
  (rc = 0 → attempts = 4%nat)
  ∧ genericRequest rt ep h d f rc s
    = (Raise RequestFailedError,
       withSent s (sent s ++ repeat (mkRequest rt ep h d None f) attempts))
  ∧ get ep h d j rc s
    = (Raise RequestFailedError,
       withSent s
         (sent s ++ repeat (mkRequest RequestType.get ep h d j None) attempts))
  ∧ post ep h d j rc s
    = (Raise RequestFailedError,
       withSent s
         (sent s ++ repeat (mkRequest RequestType.post ep h d j None) attempts)).
Proof.
  intros Hraise attempts. split; [|split; [|split]].
  - intros ->. reflexivity.
  - rewrite genericRequest_loop. apply sendUpTo_all_raise.
    intros hist. apply Hraise. reflexivity.
  - rewrite get_loop. apply sendUpTo_all_raise.
    intros hist. apply Hraise. reflexivity.
  - rewrite post_loop. apply sendUpTo_all_raise.
    intros hist. apply Hraise. reflexivity.
Qed.

Lemma transport_gives_up_after_four_attempts_witness :
  let s := Examples.client Examples.unreachable None None ∅ in
  (∀ hist q, endpoint q = "user/login" → server s hist q = Raised)
  ∧ genericRequest RequestType.post "user/login" None NoData None 0 s
    = (Raise RequestFailedError,
       withSent s
         (repeat (mkRequest RequestType.post "user/login" None NoData None None) 4)).
Proof.
  intros s. split.
  - intros hist q _. reflexivity.
  - apply (transport_gives_up_after_four_attempts s RequestType.post
             "user/login" None NoData None None 0).
    intros hist q _. reflexivity.
Defined.

End TransportClaims.

(** ** The retry policy *)

Section RetryPolicy.

Import NetworkManagerBase.

(** A response of status 500 or 503 is answered true at every count but 3. *)
Lemma shouldRetry_server_error rc r s :
  rc ≠ MAX_RETRY_COUNT →
  statusCode r = HttpCode.internalServerError
  ∨ statusCode r = HttpCode.serviceUnavailable →
  shouldRetry rc r s = (Ok true, s).
Proof.
  unfold MAX_RETRY_COUNT, HttpCode.internalServerError,
    HttpCode.serviceUnavailable.
  intros Hrc Hstatus. unfold shouldRetry, MAX_RETRY_COUNT, isUnauthorized,
    HttpCode.unauthorized, HttpCode.internalServerError,
    HttpCode.serviceUnavailable.
  destruct (rc =? 3) eqn:E; [lia|].
  destruct (statusCode r =? 401) eqn:E1; [lia|].
  destruct Hstatus as [-> | ->]; reflexivity.
Qed.

(** C2: [shouldRetry] compares [retryCount] with the limit by equality, so a
    count above 3 is not stopped: with a response of status 500 or 503 it
    answers true, where the claim has false for every count from 3 on. *)
Theorem shouldRetry_above_limit_retries (rc : Z) (r : NetworkResponse) (s : State) :
  MAX_RETRY_COUNT < rc →
  statusCode r = HttpCode.internalServerError
  ∨ statusCode r = HttpCode.serviceUnavailable →
  shouldRetry rc r s = (Ok true, s).
Proof.
  intros Hrc Hstatus. apply shouldRetry_server_error; [lia|exact Hstatus].
Qed.

Lemma shouldRetry_above_limit_retries_witness :
  let s := Examples.client (Examples.always Examples.r500) None None ∅ in
  shouldRetry 4 Examples.r500 s = (Ok true, s).
Proof.
  intros s.
  apply (shouldRetry_above_limit_retries 4 Examples.r500 s).
  - unfold MAX_RETRY_COUNT. lia.
  - left. reflexivity.
Defined.

(** One step of the policy. *)
Lemma retrying_unfold fuel attempt finish rc s :
  retrying (S fuel) attempt finish rc s
  = match attempt s with
    | (Ok r, s1) =>
        match shouldRetry rc r s1 with
        | (Ok true, s2) => retrying fuel attempt finish (rc + 1) s2
        | (Ok false, s2) => finish r s2
        | (Raise e, s2) => (Raise e, s2)
        end
    | (Raise e, s1) => (Raise e, s1)
    end.
Proof.
  simpl. run_monad. destruct (attempt s) as [[r|e] s1]; [|reflexivity].
  destruct (shouldRetry rc r s1) as [[[|]|e] s2]; reflexivity.
Qed.

(** [genericJSONRequest] is the policy around its request; the headers are
    those of the first call. *)
Lemma genericJSONRequest_retrying fuel ep rt p h rc s :
  genericJSONRequest fuel ep rt p h rc s
  = retrying fuel (jsonAttempt ep rt (default ∅ p) (jsonHeaders h s)) ret rc s.
Proof.
  revert p h rc s. induction fuel as [|fuel IH]; intros p h rc s; [reflexivity|].
  rewrite retrying_unfold. simpl. run_monad. unfold jsonAttempt.
  destruct h as [hh|]; simpl jsonHeaders;
    match goal with
    | |- context [RequestsManager.genericRequest ?a1 ?a2 ?a3 ?a4 ?a5 ?a6 ?a7] =>
        destruct (RequestsManager.genericRequest a1 a2 a3 a4 a5 a6 a7)
          as [[r|e] s1]
    end; try reflexivity;
    destruct (shouldRetry rc r s1) as [[[|]|e] s2]; try reflexivity;
    rewrite IH; reflexivity.
Qed.

(** [genericUpload] is the policy around its request; the headers are made
    anew at every call. *)
Lemma genericUpload_retrying fuel ep files p rc s :
  genericUpload fuel ep files p rc s
  = retrying fuel (uploadAttempt ep files (default ∅ p)) ret rc s.
Proof.
  revert p rc s. induction fuel as [|fuel IH]; intros p rc s; [reflexivity|].
  rewrite retrying_unfold. simpl. run_monad. unfold uploadAttempt. run_monad.
  destruct (RequestsManager.genericRequest RequestType.post ep
              (Some (delete "Content-Type" (_requestHeader s)))
              (FormFields (default ∅ p)) files 0 s) as [[r|e] s1]; [|reflexivity].
  destruct (shouldRetry rc r s1) as [[[|]|e] s2]; try reflexivity.
  rewrite IH. reflexivity.
Qed.

(** [genericDownload] is the policy around its request, and saves the
    response it keeps. *)
Lemma genericDownload_retrying fuel ep dest p rc s :
  genericDownload fuel ep dest p rc s
  = retrying fuel (downloadAttempt ep (default ∅ p)) (saveResponse dest) rc s.
Proof.
  revert p rc s. induction fuel as [|fuel IH]; intros p rc s; [reflexivity|].
  rewrite retrying_unfold. simpl. run_monad. unfold downloadAttempt. run_monad.
  destruct (RequestsManager.get ep (Some (_requestHeader s)) NoData
              (Some (default ∅ p)) 0 s) as [[r|e] s1]; [|reflexivity].
  destruct (shouldRetry rc r s1) as [[[|]|e] s2]; try reflexivity.
  rewrite IH. reflexivity.
Qed.

(** Past the limit the retries are not bounded: while the request is
    answered 500, every depth of calls the interpreter allows is used up. *)
Lemma retrying_above_limit_unbounded fuel attempt finish rc s r :
  MAX_RETRY_COUNT < rc →
  statusCode r = HttpCode.internalServerError →
  (∀ s1, ∃ s2, attempt s1 = (Ok r, s2)) →
  fst (retrying fuel attempt finish rc s) = Raise RecursionError.
Proof.
  revert rc s. induction fuel as [|fuel IH]; intros rc s Hrc Hst Hsrv;
    [reflexivity|].
  rewrite retrying_unfold. destruct (Hsrv s) as (s2 & ->).
  rewrite shouldRetry_server_error by (auto; lia).
  apply IH; [lia|assumption|assumption].
Qed.

End RetryPolicy.

(** ** Unauthorized responses and the token refresh *)

Section Refresh.

Import NetworkManagerBase.

(** Counterexample to C5 as stated: with [retryCount = 3] a 401 response
    is answered false at once and no request is sent, although a refresh
    would not fail. *)
Lemma shouldRetry_unauthorized_at_limit_no_refresh :
  isUnauthorized Examples.r401 = true
  ∧ (∃ rr s', refreshToken Examples.expired = (Ok rr, s') ∧ hasFailed rr = false)
  ∧ shouldRetry 3 Examples.r401 Examples.expired = (Ok false, Examples.expired)
  ∧ sent (snd (shouldRetry 3 Examples.r401 Examples.expired)) = [].
Proof.
  split; [reflexivity|]. split; [|split; reflexivity].
  eexists. eexists. split; [vm_compute; reflexivity|reflexivity].
Qed.

(** C5, amended: for a 401 response and [retryCount] below the limit,
    [shouldRetry] calls [refreshToken] once.  That is one refresh request,
    which the transport sends once when the HTTP library gives a response
    and at most four times when it raises; nothing else is sent.  The answer
    is true when the refresh response did not fail and false when it failed,
    and [RequestFailedError] when there was no response. *)
Theorem shouldRetry_unauthorized_refreshes_once
    (rc : Z) (r : NetworkResponse) (s : State) :
  rc < MAX_RETRY_COUNT →
  isUnauthorized r = true →
  (∃ k, (1 ≤ k ≤ 4)%nat
        ∧ sent (snd (shouldRetry rc r s)) = sent s ++ repeat (refreshRequest s) k)
  ∧ match refreshToken s with
    | (Ok rr, s') => shouldRetry rc r s = (Ok (negb (hasFailed rr)), s')
    | (Raise e, s') =>
        e = RequestFailedError ∧ shouldRetry rc r s = (Raise e, s')
    end
  ∧ (∀ rr, server s (sent s) (refreshRequest s) = Responded rr →
       shouldRetry rc r s
       = (Ok (negb (hasFailed rr)),
          refreshed rr (withSent s (sent s ++ [refreshRequest s])))).
Proof.
  intros Hrc H401.
  assert (shouldRetry rc r s
          = match refreshToken s with
            | (Ok rr, s') => (Ok (negb (hasFailed rr)), s')
            | (Raise e, s') => (Raise e, s')
            end) as Hstep.
  { unfold shouldRetry. unfold MAX_RETRY_COUNT in *.
    destruct (rc =? 3) eqn:E; [lia|]. rewrite H401. run_monad.
    destruct (refreshToken s) as [[rr|e] s']; reflexivity. }
  split; [|split].
  - rewrite Hstep, refreshToken_eq.
    destruct (sendUpTo_sent 3 (refreshRequest s) s) as (k & Hk & E).
    exists k. split; [exact Hk|].
    destruct (sendUpTo 3 (refreshRequest s) s) as [[rr|e] s1];
      simpl in E; subst s1; simpl; [|reflexivity].
    unfold refreshed. destruct (json rr !! apiTokenKey); reflexivity.
  - rewrite Hstep. pose proof (refreshToken_eq s) as E.
    destruct (refreshToken s) as [[rr|e] s']; [reflexivity|].
    split; [|reflexivity].
    pose proof (sendUpTo_raises 3 (refreshRequest s) s e) as Hr.
    destruct (sendUpTo 3 (refreshRequest s) s) as [[rr|e'] s1];
      [destruct (json rr !! apiTokenKey); discriminate|].
    apply Hr. simpl. congruence.
  - intros rr Hrr. rewrite Hstep, refreshToken_eq.
    rewrite (sendUpTo_responded 3 _ s rr Hrr). reflexivity.
Qed.

Lemma shouldRetry_unauthorized_refreshes_once_witness :
  0 < MAX_RETRY_COUNT
  ∧ isUnauthorized Examples.r401 = true
  ∧ ∃ k, (1 ≤ k ≤ 4)%nat
         ∧ sent (snd (shouldRetry 0 Examples.r401 Examples.expired))
           = sent Examples.expired ++ repeat (refreshRequest Examples.expired) k.
Proof.
  split; [reflexivity|]. split; [reflexivity|].
  apply (shouldRetry_unauthorized_refreshes_once 0 Examples.r401 Examples.expired);
    reflexivity.
Defined.

End Refresh.

(** ** One policy for the operations that retry *)

Section SharedPolicy.

Import NetworkManagerBase.

(** At the limit the response is kept, whatever it is. *)
Lemma retrying_at_limit fuel attempt finish s :
  retrying (S fuel) attempt finish MAX_RETRY_COUNT s
  = (response <- attempt ;; finish response) s.
Proof.
  rewrite retrying_unfold. run_monad.
  destruct (attempt s) as [[r|e] s1]; reflexivity.
Qed.

(** From a count between 0 and 3 the limit is reached after at most
    [3 - retryCount] re-issues: a depth of [4 - retryCount] calls is enough,
    and more depth changes nothing. *)
Lemma retrying_bounded attempt finish rc s extra :
  0 ≤ rc ≤ MAX_RETRY_COUNT →
  retrying (Z.to_nat (4 - rc) + extra) attempt finish rc s
  = retrying (Z.to_nat (4 - rc)) attempt finish rc s.
Proof.
  unfold MAX_RETRY_COUNT. intros Hrc.
  remember (Z.to_nat (3 - rc)) as n eqn:Hn.
  replace (Z.to_nat (4 - rc)) with (S n) by lia.
  revert rc s Hrc Hn. induction n as [|n IH]; intros rc s Hrc Hn.
  - assert (rc = MAX_RETRY_COUNT) as -> by (unfold MAX_RETRY_COUNT; lia).
    change (1 + extra)%nat with (S extra). rewrite !retrying_at_limit.
    reflexivity.
  - change (S (S n) + extra)%nat with (S (S n + extra)).
    rewrite !retrying_unfold.
    destruct (attempt s) as [[r|e] s1]; [|reflexivity].
    destruct (shouldRetry rc r s1) as [[[|]|e] s2]; try reflexivity.
    apply IH; lia.
Qed.

(** C6: [genericDelete] does not apply the policy.  A 500 response, which
    [shouldRetry] answers with true, is returned after one request, where
    [genericUpload] sends four; and on the client whose access token has
    expired the 401 is returned with no refresh and the old token kept,
    where [genericUpload] refreshes and succeeds. *)
Theorem genericDelete_does_not_retry :
  let s := Examples.client (Examples.always Examples.r500) None None ∅ in
  let viaDelete := genericDelete "dummyObject/delete" s in
  let viaUpload := genericUpload 1000 "dummyObject/delete" None None 0 s in
  let expiredDelete := genericDelete "dummyObject/delete" Examples.expired in
  let expiredUpload :=
    genericUpload 1000 "dummyObject/delete" None None 0 Examples.expired in
  fst (shouldRetry 0 Examples.r500 s) = Ok true
  ∧ fst viaDelete = Ok Examples.r500
  ∧ length (sent (snd viaDelete)) = 1%nat
  ∧ length (sent (snd viaUpload)) = 4%nat
  ∧ fst expiredDelete = Ok Examples.r401
  ∧ map endpoint (sent (snd expiredDelete)) = ["dummyObject/delete"]
  ∧ apiToken (snd expiredDelete) = Some (JStr "access-1")
  ∧ fst expiredUpload = Ok Examples.r200
  ∧ map endpoint (sent (snd expiredUpload))
    = ["dummyObject/delete"; "user/refresh"; "dummyObject/delete"].
Proof. vm_compute. repeat split. Qed.

(** The policy of the operations that retry: [genericJSONRequest],
    [genericUpload] and [genericDownload] consult
    [shouldRetry retryCount response] after a response and call themselves
    with [retryCount + 1] when it answers true; at [retryCount = 3] the
    response is kept, so from a count between 0 and 3 a depth of
    [4 - retryCount] calls is enough.  [genericDelete] is one call of the
    transport. *)
Lemma generic_operations_share_retry_policy
    (fuel : nat) (ep : string) (rt : RequestType.t) (dest : Path)
    (files : option (gmap string FilePart))
    (p h : option (gmap string JValue)) (rc : Z) (s : State) :
  genericJSONRequest fuel ep rt p h rc s
  = retrying fuel (jsonAttempt ep rt (default ∅ p) (jsonHeaders h s)) ret rc s
  ∧ genericUpload fuel ep files p rc s
    = retrying fuel (uploadAttempt ep files (default ∅ p)) ret rc s
  ∧ genericDownload fuel ep dest p rc s
    = retrying fuel (downloadAttempt ep (default ∅ p)) (saveResponse dest) rc s
  ∧ (∀ attempt finish,
       retrying (S fuel) attempt finish 3 s
       = (response <- attempt ;; finish response) s)
  ∧ (∀ attempt finish extra,
       0 ≤ rc ≤ 3 →
       retrying (Z.to_nat (4 - rc) + extra) attempt finish rc s
       = retrying (Z.to_nat (4 - rc)) attempt finish rc s)
  ∧ genericDelete ep s
    = RequestsManager.genericRequest RequestType.delete ep
        (Some (_requestHeader s)) NoData None 0 s.
Proof.
  split; [apply genericJSONRequest_retrying|].
  split; [apply genericUpload_retrying|].
  split; [apply genericDownload_retrying|].
  split; [intros; apply retrying_at_limit|].
  split; [intros; apply retrying_bounded; assumption|].
  reflexivity.
Qed.

Lemma generic_operations_share_retry_policy_witness :
  let s := Examples.client (Examples.always Examples.r500) None None ∅ in
  genericUpload 4 "upload/chunk" None None 0 s
  = retrying 4 (uploadAttempt "upload/chunk" None ∅) ret 0 s
  ∧ retrying (4 + 996) (uploadAttempt "upload/chunk" None ∅) ret 0 s
    = retrying 4 (uploadAttempt "upload/chunk" None ∅) ret 0 s.
Proof.
  intros s.
  pose proof (generic_operations_share_retry_policy 4 "upload/chunk"
                RequestType.post [] None None None 0 s)
    as (_ & Hup & _ & _ & Hbound & _).
  split; [exact Hup|].
  apply (Hbound (uploadAttempt "upload/chunk" None ∅) ret 996%nat). lia.
Defined.

End SharedPolicy.

(** ** The request that is sent again after a refresh *)

Section Reissue.

Import NetworkManagerBase.

(** After a 401 and a refresh that did not fail, [genericJSONRequest] called
    without headers goes on with the headers of its first call: the call it
    makes next is given the header built before the refresh, whatever token
    the refresh brought. *)
Lemma genericJSONRequest_reissues_first_headers fuel ep rt p rc s r rr :
  rc ≠ MAX_RETRY_COUNT →
  let q := mkRequest rt ep (Some (_requestHeader s)) (JsonText (default ∅ p))
             None None in
  server s (sent s) q = Responded r →
  isUnauthorized r = true →
  server s (sent s ++ [q]) (refreshRequest s) = Responded rr →
  hasFailed rr = false →
  genericJSONRequest (S fuel) ep rt p None rc s
  = genericJSONRequest fuel ep rt (Some (default ∅ p)) (Some (_requestHeader s))
      (rc + 1)
      (refreshed rr
         (withSent s ((sent s ++ [q]) ++ [refreshRequest s]))).
Proof.
  intros Hrc q Hq H401 Hrr Hok. unfold MAX_RETRY_COUNT in Hrc.
  rewrite !genericJSONRequest_retrying, retrying_unfold.
  unfold jsonAttempt. simpl jsonHeaders. rewrite genericRequest_loop.
  fold q. rewrite (sendUpTo_responded _ q s r Hq).
  unfold shouldRetry, MAX_RETRY_COUNT.
  destruct (rc =? 3) eqn:E; [lia|]. rewrite H401. run_monad.
  rewrite refreshToken_eq.
  change (refreshRequest (withSent s (sent s ++ [q]))) with (refreshRequest s).
  rewrite (sendUpTo_responded 3 (refreshRequest s) _ rr) by exact Hrr.
  rewrite Hok. reflexivity.
Qed.

(** C1: on a client whose access token "access-1" has expired,
    [genericJSONRequest] gets a 401, refreshes (the client now holds
    "access-2"), and sends the request again with "access-1"; this repeats
    until the limit and the 401 is returned.  [genericUpload] and
    [genericDownload] send "access-2" after the one refresh and succeed. *)
Theorem genericJSONRequest_retry_keeps_old_token :
  let tokens (s : State) := map (fun q => (endpoint q, tokenOf q)) (sent s) in
  let viaJSON :=
    genericJSONRequest 1000 "dummy/add" RequestType.post None None 0
      Examples.expired in
  let viaUpload := genericUpload 1000 "dummy/upload" None None 0 Examples.expired in
  let viaDownload :=
    genericDownload 1000 "dummy/download" ["model.zip"] None 0 Examples.expired in
  fst viaJSON = Ok Examples.r401
  ∧ apiToken (snd viaJSON) = Some (JStr "access-2")
  ∧ tokens (snd viaJSON)
    = [("dummy/add", Some (JStr "access-1"));
       ("user/refresh", Some (JStr "refresh-1"));
       ("dummy/add", Some (JStr "access-1"));
       ("user/refresh", Some (JStr "refresh-1"));
       ("dummy/add", Some (JStr "access-1"));
       ("user/refresh", Some (JStr "refresh-1"));
       ("dummy/add", Some (JStr "access-1"))]
  ∧ fst viaUpload = Ok Examples.r200
  ∧ tokens (snd viaUpload)
    = [("dummy/upload", Some (JStr "access-1"));
       ("user/refresh", Some (JStr "refresh-1"));
       ("dummy/upload", Some (JStr "access-2"))]
  ∧ fst viaDownload = Ok Examples.r200
  ∧ tokens (snd viaDownload)
    = [("dummy/download", Some (JStr "access-1"));
       ("user/refresh", Some (JStr "refresh-1"));
       ("dummy/download", Some (JStr "access-2"))].
Proof. vm_compute. repeat split. Qed.

End Reissue.

(** ** The chunked upload: construction *)

Section Construction.

Import ChunkUploadSession.

(** A path without an entry raises one of two errors. *)
Lemma noEntryFrom_kind f done todo :
  Fs.noEntryFrom f done todo = FileNotFoundError
  ∨ Fs.noEntryFrom f done todo = NotADirectoryError.
Proof.
  revert done. induction todo as [|c todo IH]; intros done; simpl.
  - left. reflexivity.
  - destruct (f !! (done ++ [c])) as [[|contents]|]; auto.
Qed.

Lemma noEntry_kind f p :
  Fs.noEntry f p = FileNotFoundError ∨ Fs.noEntry f p = NotADirectoryError.
Proof. apply noEntryFrom_kind. Qed.

(** C7: [__init__] raises [ValueError] exactly when [chunkSize <= 0] or
    [chunkSize > 134217728]; a chunk size from 1 to 134217728 passes the
    check, and the session is then made with that chunk size whenever the
    file is there and its mime type is given or guessed.  134217728 is
    accepted, 134217729 and 0 are refused. *)
Theorem init_validates_chunkSize
    (chunkSize : Z) (filePath : Path) (mimeType : option string) (s : State) :
  (fst (__init__ chunkSize filePath mimeType s) = Raise ValueError
   ↔ chunkSize ≤ 0 ∨ chunkSize > 134217728)
  ∧ (1 ≤ chunkSize ≤ 134217728 →
     ∀ mime size,
       from_option Some (mimeGuess s filePath) mimeType = Some mime →
       Fs.st_size (fs s) filePath = Ok size →
       __init__ chunkSize filePath mimeType s
       = (Ok (mk chunkSize filePath size mime), s))
  ∧ fst (__init__ 134217728 filePath mimeType s) ≠ Raise ValueError
  ∧ fst (__init__ 134217729 filePath mimeType s) = Raise ValueError
  ∧ fst (__init__ 0 filePath mimeType s) = Raise ValueError.
Proof.
  assert (∀ c, 1 ≤ c ≤ 134217728 →
            fst (__init__ c filePath mimeType s) ≠ Raise ValueError) as Hin.
  { intros c Hc. unfold __init__, MAX_CHUNK_SIZE.
    replace ((c <=? 0) || (c >? 128 * 1024 * 1024)) with false by lia.
    run_monad.
    destruct mimeType as [m|]; [|destruct (mimeGuess s filePath)];
      try (simpl; discriminate);
      destruct (Fs.st_size (fs s) filePath) as [z|e] eqn:E; simpl;
      try discriminate;
      intros [= ->]; unfold Fs.st_size in E;
      destruct filePath; try discriminate;
      destruct (fs s !! _) as [[|]|]; try discriminate;
      injection E as E;
      match type of E with
      | Fs.noEntry ?f ?q = _ => destruct (noEntry_kind f q)
      end; congruence. }
  assert (∀ c, c ≤ 0 ∨ c > 134217728 →
            fst (__init__ c filePath mimeType s) = Raise ValueError) as Hout.
  { intros c Hc. unfold __init__, MAX_CHUNK_SIZE.
    replace ((c <=? 0) || (c >? 128 * 1024 * 1024)) with true by lia.
    reflexivity. }
  split; [|split; [|split; [|split]]].
  - split; [|apply Hout].
    intros Hraise.
    destruct (Z_le_gt_dec chunkSize 0) as [|Hpos]; [left; assumption|].
    destruct (Z_le_gt_dec chunkSize 134217728) as [Hle|]; [|right; assumption].
    exfalso. apply (Hin chunkSize); [lia|assumption].
  - intros Hc mime size Hmime Hsize. unfold __init__, MAX_CHUNK_SIZE.
    replace ((chunkSize <=? 0) || (chunkSize >? 128 * 1024 * 1024))
      with false by lia.
    run_monad.
    destruct mimeType as [m|]; simpl in Hmime.
    + injection Hmime as ->. rewrite Hsize. reflexivity.
    + rewrite Hmime. rewrite Hsize. reflexivity.
  - apply Hin. lia.
  - apply Hout. lia.
  - apply Hout. lia.
Qed.

Lemma init_validates_chunkSize_witness :
  let s := Examples.client Examples.unreachable None None Examples.disk in
  1 ≤ 16 * 1024 * 1024 ≤ 134217728
  ∧ __init__ (16 * 1024 * 1024) ["data"; "sample.bin"] None s
    = (Ok (mk (16 * 1024 * 1024) ["data"; "sample.bin"] 5
             "application/octet-stream"), s).
Proof.
  intros s. split; [lia|].
  apply (init_validates_chunkSize (16 * 1024 * 1024) ["data"; "sample.bin"]
           None s); [lia|reflexivity|reflexivity].
Defined.

End Construction.

(** ** The file system *)

Section FileSystem.






End FileSystem.

(** ** Downloads *)

Section Download.

Import NetworkManagerBase.

(** What [retrying] ends with: an exception raised with the disk untouched,
    or what [finish] does with the response that is kept. *)
Lemma retrying_cases fuel attempt finish rc s :
  (∀ s1, netOnly s1 (snd (attempt s1))) →
  (∃ e, fst (retrying fuel attempt finish rc s) = Raise e
        ∧ netOnly s (snd (retrying fuel attempt finish rc s)))
  ∨ (∃ r s2, netOnly s s2 ∧ retrying fuel attempt finish rc s = finish r s2).
Proof.
  intros Hattempt. revert rc s.
  induction fuel as [|fuel IH]; intros rc s.
  - left. exists RecursionError. split; [reflexivity|apply netOnly_refl].
  - rewrite retrying_unfold. pose proof (Hattempt s) as H1.
    destruct (attempt s) as [[r|e] s1]; simpl in H1.
    + pose proof (shouldRetry_netOnly rc r s1) as H2.
      destruct (shouldRetry rc r s1) as [[[|]|e] s2]; simpl in H2.
      * destruct (IH (rc + 1) s2) as [(e & He & Hn)|(r' & s3 & Hn & He)].
        -- left. exists e. split; [exact He|].
           eapply netOnly_trans; [|exact Hn].
           eapply netOnly_trans; eassumption.
        -- right. exists r', s3. split; [|exact He].
           eapply netOnly_trans; [|exact Hn].
           eapply netOnly_trans; eassumption.
      * right. exists r, s2. split; [|reflexivity].
        eapply netOnly_trans; eassumption.
      * left. exists e. split; [reflexivity|].
        eapply netOnly_trans; eassumption.
    + left. exists e. split; [reflexivity|exact H1].
Qed.

Lemma downloadAttempt_netOnly ep p s : netOnly s (snd (downloadAttempt ep p s)).
Proof.
  unfold downloadAttempt. run_monad. rewrite get_loop. apply sendUpTo_netOnly.
Qed.

Lemma downloadAttempt_eq ep p s :
  downloadAttempt ep p s
  = RequestsManager.get ep (Some (_requestHeader s)) NoData (Some p) 0 s.
Proof. reflexivity. Qed.


(** [saveResponse], step by step. *)
Lemma saveResponse_eq dest r s :
  saveResponse dest r s
  = if ok r then
      if Fs.is_dir (fs s) dest then (Raise RuntimeError, s)
      else
        let s1 := if Fs.exists_ (fs s) dest
                  then did (PathUnlink dest) (Fs.unlink (fs s) dest) s else s in
        match Fs.mkdir (fs s1) (Fs.parent dest) with
        | Ok f1 =>
            let s2 := did (PathMkdir (Fs.parent dest)) f1 s1 in
            match Fs.write f1 dest (content r) with
            | Ok f2 => (Ok r, did (OpenWrite dest (content r)) f2 s2)
            | Raise e => (Raise e, recorded (OpenWrite dest (content r)) s2)
            end
        | Raise e => (Raise e, recorded (PathMkdir (Fs.parent dest)) s1)
        end
    else (Ok r, s).
Proof.
  unfold saveResponse. run_monad. destruct (ok r); [|reflexivity].
  destruct (Fs.is_dir (fs s) dest); [reflexivity|].
  destruct (Fs.exists_ (fs s) dest); cbn [fs withFs withFsCalls recorded did];
    (destruct (Fs.mkdir _ (Fs.parent dest)) as [f1|e]; [|reflexivity]);
    cbn [fs withFs withFsCalls recorded did];
    destruct (Fs.write f1 dest (content r)); reflexivity.
Qed.


(** C8: when the destination is an existing directory, [genericDownload]
    never changes the disk and never returns a response that is ok; the
    call whose GET is answered by an ok response raises [RuntimeError], with
    nothing changed but the list of requests sent. *)
Theorem genericDownload_to_directory_writes_nothing
    (fuel : nat) (ep : string) (dest : Path)
    (p : option (gmap string JValue)) (rc : Z) (s : State) :
  Fs.is_dir (fs s) dest = true →
  fs (snd (genericDownload fuel ep dest p rc s)) = fs s
  ∧ (∀ r, fst (genericDownload fuel ep dest p rc s) = Ok r → ok r = false)
  ∧ (∀ r s1,
       RequestsManager.get ep (Some (_requestHeader s)) NoData
         (Some (default ∅ p)) 0 s = (Ok r, s1) →
       ok r = true →
       genericDownload (S fuel) ep dest p rc s = (Raise RuntimeError, s1)
       ∧ fs s1 = fs s).
Proof.
  intros Hdir.
  assert (∀ r s2, fs s2 = fs s →
            fs (snd (saveResponse dest r s2)) = fs s
            ∧ (∀ r', fst (saveResponse dest r s2) = Ok r' → ok r' = false)
            ∧ (ok r = true → saveResponse dest r s2 = (Raise RuntimeError, s2)))
    as Hsave.
  { intros r s2 Hfs. rewrite saveResponse_eq, Hfs, Hdir.
    destruct (ok r) eqn:Hok; simpl.
    - split; [exact Hfs|]. split; [discriminate|reflexivity].
    - split; [exact Hfs|]. split; [|discriminate].
      intros r' [= <-]. exact Hok. }
  split; [|split].
  - rewrite genericDownload_retrying.
    destruct (retrying_cases fuel (downloadAttempt ep (default ∅ p))
                (saveResponse dest) rc s (downloadAttempt_netOnly ep _))
      as [(e & _ & Hn)|(r & s2 & Hn & ->)].
    + apply Hn.
    + apply Hsave. apply Hn.
  - intros r. rewrite genericDownload_retrying.
    destruct (retrying_cases fuel (downloadAttempt ep (default ∅ p))
                (saveResponse dest) rc s (downloadAttempt_netOnly ep _))
      as [(e & He & _)|(r' & s2 & Hn & ->)].
    + rewrite He. discriminate.
    + apply Hsave. apply Hn.
  - intros r s1 Hget Hok.
    assert (fs s1 = fs s) as Hfs.
    { pose proof (downloadAttempt_netOnly ep (default ∅ p) s) as Hn.
      rewrite downloadAttempt_eq, Hget in Hn. apply Hn. }
    split; [|exact Hfs].
    rewrite genericDownload_retrying, retrying_unfold.
    rewrite downloadAttempt_eq, Hget.
    rewrite (shouldRetry_ok rc r s1 Hok). apply Hsave; assumption.
Qed.

Lemma genericDownload_to_directory_writes_nothing_witness :
  let s := Examples.client (Examples.serving Examples.payload) None None
             Examples.disk in
  Fs.is_dir (fs s) ["data"] = true
  ∧ fs (snd (genericDownload 1000 "model/download" ["data"] None 0 s)) = fs s
  ∧ fst (genericDownload 1000 "model/download" ["data"] None 0 s)
    = Raise RuntimeError.
Proof.
  intros s. split; [reflexivity|]. split.
  - apply (genericDownload_to_directory_writes_nothing 1000 "model/download"
             ["data"] None 0 s). reflexivity.
  - vm_compute. reflexivity.
Defined.







End Download.

(** ** Chunk ranges *)

Section Ranges.

Import ChunkUploadSession.

Variable self : ChunkUploadSession.t.

Let C := chunkSize self.
Let F := fileSize self.

Hypothesis HC : 1 ≤ C.
Hypothesis HF : 0 ≤ F.

(** [chunkCount] is the ceiling of [F / C]. *)
Lemma chunkCount_ceil :
  chunkCount self = (F + C - 1) / C
  ∧ (chunkCount self - 1) * C < F + Z.b2z (F =? 0)
  ∧ F ≤ chunkCount self * C
  ∧ 0 ≤ chunkCount self.
Proof.
  unfold chunkCount. fold C F.
  pose proof (Z.div_mod F C ltac:(lia)) as Hdm.
  pose proof (Z.mod_pos_bound F C ltac:(lia)) as Hmod.
  assert (0 ≤ F / C) as Hq by (apply Z.div_pos; lia).
  destruct (F mod C =? 0) eqn:E; simpl.
  - apply Z.eqb_eq in E. split.
    + apply (Z.div_unique _ C _ (C - 1)); [lia|rewrite E in Hdm; lia].
    + rewrite E in Hdm. clear E Hmod.
      destruct (F =? 0) eqn:E0; simpl;
        [apply Z.eqb_eq in E0|apply Z.eqb_neq in E0];
        generalize dependent (F / C); intros q Hdm Hq; nia.
  - apply Z.eqb_neq in E. split.
    + apply (Z.div_unique _ C _ (F mod C - 1)); [lia|lia].
    + assert ((F =? 0) = false) as -> by (apply Z.eqb_neq; intros E0;
        rewrite E0, Z.mod_0_l in E by lia; congruence).
      simpl. generalize dependent (F mod C). generalize dependent (F / C).
      intros q Hq r Hdm Hmod E. nia.
Qed.

Lemma length_chunkRanges :
  length (chunkRanges self) = Z.to_nat (chunkCount self).
Proof. unfold chunkRanges, range. rewrite !length_map, length_seq. reflexivity. Qed.

Lemma chunkRanges_lookup i :
  (i < length (chunkRanges self))%nat →
  chunkRanges self !! i
  = Some (Z.of_nat i * C, Z.min (Z.of_nat i * C + C) F).
Proof.
  rewrite length_chunkRanges. intros Hi. unfold chunkRanges, range.
  rewrite !list_lookup_fmap, lookup_seq_lt by exact Hi. reflexivity.
Qed.

Lemma tiles_from m k :
  Z.of_nat (k + m) = chunkCount self →
  1 ≤ F →
  tiles (Z.min (Z.of_nat k * C) F)
    (map (fun i => (i * C, Z.min (i * C + C) F)) (map Z.of_nat (seq k m))) F.
Proof.
  intros Hn HF1. destruct chunkCount_ceil as (_ & Hlow & Hup & _).
  replace (F =? 0) with false in Hlow by lia. simpl in Hlow.
  revert k Hn. induction m as [|m IH]; intros k Hn; simpl.
  - nia.
  - split; [nia|]. split; [nia|].
    replace (Z.of_nat k * C + C) with (Z.of_nat (S k) * C) by lia.
    apply IH. lia.
Qed.

Lemma chunkRanges_tiles : 1 ≤ F → tiles 0 (chunkRanges self) F.
Proof.
  intros HF1. pose proof (tiles_from (Z.to_nat (chunkCount self)) 0) as H.
  destruct chunkCount_ceil as (_ & _ & _ & Hpos).
  replace (Z.min (Z.of_nat 0 * C) F) with 0 in H by lia.
  apply H; [lia|exact HF1].
Qed.

End Ranges.

(** ** The chunked upload: run *)

Section Upload.

Import NetworkManagerBase ChunkUploadSession.

(** The chunks read one after the other are the file. *)
Lemma chunks_concat (c : bytes) (n : nat) (m k : nat) :
  concat (map (fun i => take n (drop (i * n) c)) (seq k m))
  = take (m * n) (drop (k * n) c).
Proof.
  revert k. induction m as [|m IH]; intros k; simpl; [reflexivity|].
  rewrite IH, <- take_take_drop, drop_drop.
  replace (k * n + n)%nat with (S k * n)%nat by lia. reflexivity.
Qed.

Lemma chunkRanges_concat self (c : bytes) :
  1 ≤ chunkSize self →
  fileSize self = Z.of_nat (length c) →
  concat (map (fun r : Z * Z =>
                 take (Z.to_nat (chunkSize self)) (drop (Z.to_nat r.1) c))
            (chunkRanges self))
  = c.
Proof.
  intros HC HF. unfold chunkRanges, range. rewrite !map_map. simpl.
  erewrite map_ext; [rewrite (chunks_concat c (Z.to_nat (chunkSize self)))|].
  - simpl. rewrite drop_0. apply take_ge.
    destruct (chunkCount_ceil self HC ltac:(lia)) as (_ & _ & Hup & Hpos).
    nia.
  - intros i. simpl. f_equal. f_equal. nia.
Qed.

(** A request answered by an ok response is not sent again. *)
Lemma retrying_ok fuel attempt finish rc s r s1 :
  attempt s = (Ok r, s1) → ok r = true →
  retrying (S fuel) attempt finish rc s = finish r s1.
Proof.
  intros Ha Hok. rewrite retrying_unfold, Ha, (shouldRetry_ok rc r s1 Hok).
  reflexivity.
Qed.

(** [__start] against a server that accepts. *)
Lemma start_accepted fuel self s uid :
  accepting uid (server s) →
  __start (S fuel) self s
  = (Ok uid, withSent s (sent s ++ [startRequest self s])).
Proof.
  intros Hacc. unfold __start. run_monad.
  destruct (Hacc (sent s) (startRequest self s)) as (r & Hr & Hok & Hid).
  rewrite genericJSONRequest_retrying.
  rewrite (retrying_ok fuel _ ret 0 s r
             (withSent s (sent s ++ [startRequest self s]))).
  - run_monad. unfold hasFailed. rewrite Hok. simpl. rewrite (Hid eq_refl).
    reflexivity.
  - unfold jsonAttempt. rewrite genericRequest_loop.
    apply sendUpTo_responded. exact Hr.
  - exact Hok.
Qed.

Lemma read_file f p c start n :
  p ≠ [] → f !! p = Some (File c) →
  Fs.read f p start n = Ok (take (Z.to_nat n) (drop (Z.to_nat start) c)).
Proof.
  intros Hp Hf. unfold Fs.read. destruct p; [congruence|]. rewrite Hf.
  reflexivity.
Qed.

(** [__uploadChunk] against a server that accepts. *)
Lemma uploadChunk_accepted fuel self s uid c start end_ :
  accepting uid (server s) →
  filePath self ≠ [] →
  fs s !! filePath self = Some (File c) →
  __uploadChunk (S fuel) self uid start end_ s
  = (Ok tt, withSent s (sent s ++ [chunkRequest self s uid c (start, end_)])).
Proof.
  intros Hacc Hpath Hfile. unfold __uploadChunk, _loadChunk. run_monad.
  rewrite (read_file _ _ c start (chunkSize self) Hpath Hfile).
  destruct (Hacc (sent s) (chunkRequest self s uid c (start, end_)))
    as (r & Hr & Hok & _).
  rewrite genericUpload_retrying.
  rewrite (retrying_ok fuel _ ret 0 s r
             (withSent s (sent s ++ [chunkRequest self s uid c (start, end_)]))).
  - run_monad. unfold hasFailed. rewrite Hok. reflexivity.
  - unfold uploadAttempt. run_monad. rewrite genericRequest_loop.
    apply sendUpTo_responded. exact Hr.
  - exact Hok.
Qed.

(** The loop of [run] against a server that accepts. *)
Lemma chunks_accepted fuel self s uid c (l : list Z) (before : list Request) :
  accepting uid (server s) →
  filePath self ≠ [] →
  fs s !! filePath self = Some (File c) →
  forEach l
    (fun i =>
       let start := i * chunkSize self in
       let end_ := Z.min (start + chunkSize self) (fileSize self) in
       __uploadChunk (S fuel) self uid start end_)
    (withSent s before)
  = (Ok tt,
     withSent s
       (before ++
        map (fun i =>
               chunkRequest self s uid c
                 (i * chunkSize self,
                  Z.min (i * chunkSize self + chunkSize self) (fileSize self)))
          l)).
Proof.
  intros Hacc Hpath Hfile. revert before.
  induction l as [|i l IH]; intros before; simpl.
  - rewrite app_nil_r. reflexivity.
  - run_monad.
    rewrite (uploadChunk_accepted fuel self (withSent s before) uid c)
      by assumption.
    simpl. change (withSent (withSent s before) ?x) with (withSent s x).
    fold (forEach (A:=Z)).
    change (chunkRequest self (withSent s before)) with (chunkRequest self s).
    rewrite IH. rewrite <- app_assoc. reflexivity.
Qed.

End Upload.

Section Partition.

Import NetworkManagerBase ChunkUploadSession.

(** C3: for a file of [F >= 1] bytes and a chunk size [C] from 1 to
    134217728, against a server that accepts every request, [run] returns
    the upload id after sending the start request and then one chunk
    request for each range of [chunkRanges], in that order and nothing
    else.  There are [ceil (F / C)] ranges, the [i]-th is
    [(i * C, min (i * C + C) F)], they tile [0, F) without gap or overlap,
    their starts increase strictly, and the bytes sent are the file.  With
    [C] = 16 MiB and [F] = 40 MiB the ranges are [0, 16Mi), [16Mi, 32Mi),
    [32Mi, 40Mi). *)
Theorem run_uploads_partition
    (fuel : nat) (self : ChunkUploadSession.t) (s : State) (uid : string)
    (c : bytes) :
  1 ≤ chunkSize self ≤ MAX_CHUNK_SIZE →
  1 ≤ fileSize self →
  filePath self ≠ [] →
  fs s !! filePath self = Some (File c) →
  fileSize self = Z.of_nat (length c) →
  accepting uid (server s) →
  let C := chunkSize self in
  let F := fileSize self in
  let ranges := chunkRanges self in
  run (S fuel) self s
  = (Ok uid,
     withSent s
       (sent s ++ startRequest self s :: map (chunkRequest self s uid c) ranges))
  ∧ Z.of_nat (length ranges) = (F + C - 1) / C
  ∧ (Z.of_nat (length ranges) - 1) * C < F ≤ Z.of_nat (length ranges) * C
  ∧ (∀ i, (i < length ranges)%nat →
          ranges !! i = Some (Z.of_nat i * C, Z.min (Z.of_nat i * C + C) F))
  ∧ tiles 0 ranges F
  ∧ (∀ i j ri rj, ranges !! i = Some ri → ranges !! j = Some rj →
                  (i < j)%nat → ri.1 < rj.1)
  ∧ concat (map (fun r : Z * Z => take (Z.to_nat C) (drop (Z.to_nat r.1) c))
              ranges) = c
  ∧ (∀ path mime,
       chunkRanges (mk (16 * 1024 * 1024) path (40 * 1024 * 1024) mime)
       = [(0, 16 * 1024 * 1024);
          (16 * 1024 * 1024, 32 * 1024 * 1024);
          (32 * 1024 * 1024, 40 * 1024 * 1024)]).
Proof.
  intros HC HF Hpath Hfile Hlen Hacc C F ranges.
  destruct (chunkCount_ceil self ltac:(lia) ltac:(lia))
    as (Hceil & Hlow & Hup & Hpos).
  replace (fileSize self =? 0) with false in Hlow by lia. simpl in Hlow.
  assert (Z.of_nat (length ranges) = chunkCount self) as Hcount.
  { unfold ranges. rewrite length_chunkRanges. lia. }
  split; [|split; [|split; [|split; [|split; [|split; [|split]]]]]].
  - unfold run. run_monad. rewrite (start_accepted fuel self s uid Hacc).
    replace (chunkSize self =? 0) with false by lia.
    rewrite (chunks_accepted fuel self s uid c) by assumption.
    unfold ranges, chunkRanges. rewrite map_map, <- app_assoc. reflexivity.
  - rewrite Hcount. exact Hceil.
  - rewrite Hcount. fold C F in Hlow, Hup. lia.
  - intros i Hi. apply chunkRanges_lookup. exact Hi.
  - apply chunkRanges_tiles; lia.
  - intros i j ri rj Hi Hj Hij.
    assert (i < length ranges)%nat as Hi' by (eapply lookup_lt_Some; exact Hi).
    assert (j < length ranges)%nat as Hj' by (eapply lookup_lt_Some; exact Hj).
    unfold ranges in *. rewrite chunkRanges_lookup in Hi by exact Hi'.
    rewrite chunkRanges_lookup in Hj by exact Hj'.
    injection Hi as <-. injection Hj as <-. simpl. nia.
  - apply chunkRanges_concat; [lia|exact Hlen].
  - intros path mime. reflexivity.
Qed.

Lemma run_uploads_partition_witness :
  let s := Examples.client Examples.uploads (Some (JStr "access-2")) None
             Examples.disk in
  fst (run 1 Examples.session s) = Ok "upload-7"
  ∧ chunkRanges Examples.session = [(0, 2); (2, 4); (4, 5)]
  ∧ tiles 0 (chunkRanges Examples.session) 5
  ∧ map endpoint (sent (snd (run 1 Examples.session s)))
    = ["upload/start"; "upload/chunk"; "upload/chunk"; "upload/chunk"].
Proof.
  intros s.
  pose proof (run_uploads_partition 0 Examples.session s "upload-7"
                [Byte.x63; Byte.x6f; Byte.x72; Byte.x65; Byte.x78]) as H.
  destruct H as (Hrun & _ & _ & _ & Htiles & _).
  - unfold MAX_CHUNK_SIZE. simpl. lia.
  - simpl. lia.
  - discriminate.
  - reflexivity.
  - reflexivity.
  - intros hist q. eexists. split; [reflexivity|]. split; reflexivity.
  - split; [rewrite Hrun; reflexivity|]. split; [reflexivity|].
    split; [exact Htiles|]. rewrite Hrun. reflexivity.
Defined.

End Partition.

(** ** What is sent *)

Section Sent.

Import NetworkManagerBase.

Lemma sendsOnly_refl P s : sendsOnly P s s.
Proof. exists []. split; [symmetry; apply app_nil_r|constructor]. Qed.

Lemma sendsOnly_trans P s1 s2 s3 :
  sendsOnly P s1 s2 → sendsOnly P s2 s3 → sendsOnly P s1 s3.
Proof.
  intros (l1 & E1 & F1) (l2 & E2 & F2). exists (l1 ++ l2). split.
  - rewrite E2, E1, app_assoc. reflexivity.
  - apply Forall_app. split; assumption.
Qed.

Lemma sendsOnly_weaken (P Q : Request → Prop) s s' :
  (∀ q, P q → Q q) → sendsOnly P s s' → sendsOnly Q s s'.
Proof.
  intros HPQ (l & E & HF). exists l. split; [exact E|].
  eapply Forall_impl; eassumption.
Qed.

Lemma sendUpTo_sendsOnly (P : Request → Prop) n q s :
  P q → sendsOnly P s (snd (sendUpTo n q s)).
Proof.
  intros HP. destruct (sendUpTo_sent n q s) as (k & _ & E). rewrite E.
  exists (repeat q k). split; [reflexivity|].
  clear E. induction k as [|k IH]; simpl; constructor; assumption.
Qed.

Lemma refreshToken_sendsOnly (P : Request → Prop) s :
  (∀ q, endpoint q = refreshEndpoint → P q) →
  sendsOnly P s (snd (refreshToken s)).
Proof.
  intros HP. rewrite refreshToken_eq.
  pose proof (sendUpTo_sendsOnly P 3 (refreshRequest s) s
                (HP (refreshRequest s) eq_refl)) as H.
  destruct (sendUpTo 3 (refreshRequest s) s) as [[r|e] s1]; simpl in *;
    [|exact H].
  unfold refreshed. destruct (json r !! apiTokenKey); exact H.
Qed.

Lemma shouldRetry_sendsOnly (P : Request → Prop) rc r s :
  (∀ q, endpoint q = refreshEndpoint → P q) →
  sendsOnly P s (snd (shouldRetry rc r s)).
Proof.
  intros HP. unfold shouldRetry.
  destruct (rc =? MAX_RETRY_COUNT); [apply sendsOnly_refl|].
  destruct (isUnauthorized r); [|apply sendsOnly_refl].
  run_monad. pose proof (refreshToken_sendsOnly P s HP) as H.
  destruct (refreshToken s) as [[rr|e] s1]; exact H.
Qed.

Lemma retrying_sendsOnly (P : Request → Prop) fuel attempt finish rc s :
  (∀ q, endpoint q = refreshEndpoint → P q) →
  (∀ s1, sendsOnly P s1 (snd (attempt s1))) →
  (∀ r s1, sendsOnly P s1 (snd (finish r s1))) →
  sendsOnly P s (snd (retrying fuel attempt finish rc s)).
Proof.
  intros HP Hattempt Hfinish. revert rc s.
  induction fuel as [|fuel IH]; intros rc s; [apply sendsOnly_refl|].
  rewrite retrying_unfold. pose proof (Hattempt s) as H1.
  destruct (attempt s) as [[r|e] s1]; simpl in H1; [|exact H1].
  pose proof (shouldRetry_sendsOnly P rc r s1 HP) as H2.
  destruct (shouldRetry rc r s1) as [[[|]|e] s2]; simpl in H2.
  - eapply sendsOnly_trans; [exact H1|].
    eapply sendsOnly_trans; [exact H2|]. apply IH.
  - eapply sendsOnly_trans; [exact H1|].
    eapply sendsOnly_trans; [exact H2|]. apply Hfinish.
  - eapply sendsOnly_trans; eassumption.
Qed.

(** [genericJSONRequest] sends its request and refresh requests only. *)
Lemma genericJSONRequest_sendsOnly fuel ep rt p h rc s :
  sendsOnly (fun q => endpoint q = ep ∨ endpoint q = refreshEndpoint) s
    (snd (genericJSONRequest fuel ep rt p h rc s)).
Proof.
  rewrite genericJSONRequest_retrying. apply retrying_sendsOnly.
  - intros q Hq. right. exact Hq.
  - intros s1. unfold jsonAttempt. rewrite genericRequest_loop.
    apply sendUpTo_sendsOnly. left. reflexivity.
  - intros r s1. apply sendsOnly_refl.
Qed.

(** A call of [genericJSONRequest] without headers first sends the request
    with the client's header. *)
Lemma genericJSONRequest_first fuel ep rt p rc s :
  ∃ rest,
    sent (snd (genericJSONRequest (S fuel) ep rt p None rc s))
    = sent s
      ++ mkRequest rt ep (Some (_requestHeader s)) (JsonText (default ∅ p))
           None None :: rest.
Proof.
  set (q := mkRequest rt ep (Some (_requestHeader s)) (JsonText (default ∅ p))
              None None).
  pose proof (genericJSONRequest_retrying (S fuel) ep rt p None rc s) as E.
  rewrite retrying_unfold in E. unfold jsonAttempt at 1 in E.
  rewrite genericRequest_loop in E. simpl jsonHeaders in E. fold q in E.
  rewrite E. clear E.
  destruct (sendUpTo_sent (retriesLeft 0) q s) as (k & Hk & Es).
  assert (∀ s2, sendsOnly (fun _ => True) (snd (sendUpTo (retriesLeft 0) q s)) s2 →
            ∃ rest, sent s2 = sent s ++ q :: rest) as Hext.
  { intros s2 (l & El & _). rewrite El, Es. simpl.
    destruct k as [|k]; [lia|]. simpl. exists (repeat q k ++ l).
    rewrite <- app_assoc. reflexivity. }
  destruct (sendUpTo (retriesLeft 0) q s) as [[r|e] s1]; simpl in Hext.
  - pose proof (shouldRetry_sendsOnly (fun _ => True) rc r s1 (fun _ _ => I))
      as H2.
    destruct (shouldRetry rc r s1) as [[[|]|e] s2]; simpl in H2.
    + apply Hext. eapply sendsOnly_trans; [exact H2|].
      apply retrying_sendsOnly; auto.
      * intros s3. unfold jsonAttempt. rewrite genericRequest_loop.
        apply sendUpTo_sendsOnly. exact I.
      * intros r' s3. apply sendsOnly_refl.
    + apply Hext. exact H2.
    + apply Hext. exact H2.
  - apply Hext. apply sendsOnly_refl.
Qed.

End Sent.

(** ** The chunked upload of an empty file *)

Section EmptyFile.

Import NetworkManagerBase ChunkUploadSession.

(** A session that [__init__] made has a chunk size within the bounds. *)
Lemma init_chunkSize chunkSize0 filePath0 mimeType0 s self s' :
  __init__ chunkSize0 filePath0 mimeType0 s = (Ok self, s') →
  1 ≤ chunkSize self ≤ MAX_CHUNK_SIZE
  ∧ chunkSize self = chunkSize0
  ∧ filePath self = filePath0
  ∧ Fs.st_size (fs s) filePath0 = Ok (fileSize self).
Proof.
  unfold __init__.
  destruct ((chunkSize0 <=? 0) || (chunkSize0 >? MAX_CHUNK_SIZE)) eqn:E;
    [discriminate|].
  run_monad.
  destruct mimeType0 as [m|]; [|destruct (mimeGuess s filePath0)];
    try discriminate;
    (destruct (Fs.st_size (fs s) filePath0) as [size|e]; [|discriminate]);
    intros [= <- _]; simpl; (split; [lia|split; [|split]]); reflexivity.
Qed.

(** [__start] changes the state as its request does. *)
Lemma start_state fuel self s :
  snd (__start fuel self s)
  = snd (genericJSONRequest fuel "upload/start" RequestType.post
           (Some {["size" := JNum (fileSize self)]}) None 0 s).
Proof.
  unfold __start. run_monad.
  destruct (genericJSONRequest fuel "upload/start" RequestType.post
              (Some {["size" := JNum (fileSize self)]}) None 0 s)
    as [[r|e] s1]; [|reflexivity].
  destruct (hasFailed r); [reflexivity|].
  destruct (json r !! "id") as [[| | |uid]|]; reflexivity.
Qed.

(** C9: for a session that [__init__] made and whose recorded file size is
    0, [run] does what [__start] does and nothing more.  It sends the
    start request with size 0 first, sends start and refresh requests only,
    so no chunk request, and when the start request ends with a response
    that has not failed and holds a string id, it returns that id. *)
Theorem run_empty_file
    (fuel : nat) (chunkSize0 : Z) (filePath0 : Path) (mimeType0 : option string)
    (s0 s0' s : State) (self : ChunkUploadSession.t) :
  __init__ chunkSize0 filePath0 mimeType0 s0 = (Ok self, s0') →
  fileSize self = 0 →
  run fuel self s = __start fuel self s
  ∧ (fuel ≠ O →
     data (startRequest self s) = JsonText {["size" := JNum 0]}
     ∧ ∃ rest, sent (snd (run fuel self s))
               = sent s ++ startRequest self s :: rest)
  ∧ sendsOnly (fun q => endpoint q = "upload/start"
                        ∨ endpoint q = refreshEndpoint)
      s (snd (run fuel self s))
  ∧ sendsOnly (fun q => endpoint q ≠ "upload/chunk") s (snd (run fuel self s))
  ∧ (∀ r s1 uid,
       genericJSONRequest fuel "upload/start" RequestType.post
         (Some {["size" := JNum 0]}) None 0 s = (Ok r, s1) →
       hasFailed r = false →
       json r !! "id" = Some (JStr uid) →
       run fuel self s = (Ok uid, s1)).
Proof.
  intros Hinit Hsize.
  destruct (init_chunkSize _ _ _ _ _ _ Hinit) as (HC & _).
  assert (run fuel self s = __start fuel self s) as Hrun.
  { unfold run. run_monad.
    destruct (__start fuel self s) as [[uid|e] s1]; [|reflexivity].
    replace (chunkSize self =? 0) with false by lia.
    unfold chunkCount. rewrite Hsize, Z.div_0_l, Z.mod_0_l by lia.
    reflexivity. }
  assert (sendsOnly (fun q => endpoint q = "upload/start"
                              ∨ endpoint q = refreshEndpoint)
            s (snd (run fuel self s))) as Hsends.
  { rewrite Hrun, start_state. apply genericJSONRequest_sendsOnly. }
  split; [exact Hrun|]. split; [|split; [exact Hsends|split]].
  - intros Hfuel. destruct fuel as [|fuel]; [congruence|].
    split; [unfold startRequest; rewrite Hsize; reflexivity|].
    rewrite Hrun, start_state. apply genericJSONRequest_first.
  - eapply sendsOnly_weaken; [|exact Hsends].
    intros q [-> | ->]; discriminate.
  - intros r s1 uid Hreq Hok Hid. rewrite Hrun. unfold __start. run_monad.
    rewrite Hsize, Hreq, Hok, Hid. reflexivity.
Qed.

Lemma run_empty_file_witness :
  let s := Examples.client Examples.uploads None None Examples.emptyDisk in
  __init__ 1024 ["empty.bin"] None s = (Ok Examples.emptySession, s)
  ∧ ChunkUploadSession.fileSize Examples.emptySession = 0
  ∧ run 1000 Examples.emptySession s = (Ok "upload-7", snd (run 1000 Examples.emptySession s))
  ∧ map endpoint (sent (snd (run 1000 Examples.emptySession s))) = ["upload/start"].
Proof.
  intros s.
  assert (__init__ 1024 ["empty.bin"] None s = (Ok Examples.emptySession, s))
    as Hinit by reflexivity.
  split; [exact Hinit|]. split; [reflexivity|].
  destruct (run_empty_file 1000 1024 ["empty.bin"] None s s s
              Examples.emptySession Hinit eq_refl) as (Hrun & _ & _ & _ & Hid).
  split.
  - apply (Hid (mkResponse 200 [] {["id" := JStr "upload-7"]})
               (snd (run 1000 Examples.emptySession s))).
    + vm_compute. reflexivity.
    + reflexivity.
    + reflexivity.
  - vm_compute. reflexivity.
Defined.

End EmptyFile.

(** * Further properties *)

(** ** The transport: transient exceptions *)

Section TransportRecovery.

Import RequestsManager.

Lemma raisesFirst_next k q s :
  raisesFirst (S k) q s → raisesFirst k q (withSent s (sent s ++ [q])).
Proof.
  intros H i Hi. simpl. rewrite <- app_assoc. apply (H (S i)). lia.
Qed.

Lemma sendUpTo_after_raises n k q s r :
  (k ≤ n)%nat →
  raisesFirst k q s →
  server s (sent s ++ repeat q k) q = Responded r →
  sendUpTo n q s = (Ok r, withSent s (sent s ++ repeat q (S k))).
Proof.
  revert n s. induction k as [|k IH]; intros n s Hk Hraise Hresp.
  - simpl in Hresp. rewrite app_nil_r in Hresp.
    apply sendUpTo_responded. exact Hresp.
  - destruct n as [|n]; [lia|]. simpl.
    pose proof (Hraise O ltac:(lia)) as H0. simpl in H0.
    rewrite app_nil_r in H0. rewrite H0.
    rewrite (IH n (withSent s (sent s ++ [q])) ltac:(lia)
               (raisesFirst_next k q s Hraise)).
    + simpl. unfold withSent. simpl. rewrite <- app_assoc. reflexivity.
    + simpl. rewrite <- app_assoc. exact Hresp.
Qed.

(** The two ways the loop ends. *)
Lemma sendUpTo_outcome n q s :
  (∃ k r, (k ≤ n)%nat ∧ raisesFirst k q s
          ∧ server s (sent s ++ repeat q k) q = Responded r
          ∧ sendUpTo n q s = (Ok r, withSent s (sent s ++ repeat q (S k))))
  ∨ (raisesFirst (S n) q s
     ∧ sendUpTo n q s
       = (Raise RequestFailedError, withSent s (sent s ++ repeat q (S n)))).
Proof.
  assert (∀ m, (∀ k, (k < m)%nat → raisesFirst (S k) q s) → raisesFirst m q s)
    as Hall.
  { intros m H i Hi. apply (H i Hi). lia. }
  assert (∀ m, raisesFirst m q s
               ∨ ∃ k r, (k < m)%nat ∧ raisesFirst k q s
                        ∧ server s (sent s ++ repeat q k) q = Responded r)
    as Hsplit.
  { induction m as [|m [IH|(k & r & Hk & Hr & Hresp)]].
    - left. intros i Hi. lia.
    - destruct (server s (sent s ++ repeat q m) q) as [|r] eqn:E.
      + left. intros i Hi.
        destruct (decide (i = m)) as [->|]; [exact E|apply IH; lia].
      + right. exists m, r. split; [lia|]. split; assumption.
    - right. exists k, r. split; [lia|]. split; assumption. }
  destruct (Hsplit (S n)) as [Hraise|(k & r & Hk & Hraise & Hresp)].
  - right. split; [exact Hraise|].
    clear Hall Hsplit. revert s Hraise.
    induction n as [|n IH]; intros s Hraise; simpl;
      pose proof (Hraise O ltac:(lia)) as H0; simpl in H0;
      rewrite app_nil_r in H0; rewrite H0; [reflexivity|].
    rewrite (IH _ (raisesFirst_next _ q s Hraise)).
    simpl. unfold withSent. simpl. rewrite <- app_assoc. reflexivity.
  - left. exists k, r. split; [lia|]. split; [exact Hraise|].
    split; [exact Hresp|]. apply sendUpTo_after_raises; [lia|assumption..].
Qed.

(** X1: when the HTTP library raises at the first [k] attempts of a request,
    [k] being at most the retries left, and answers the next one, the
    transport function returns that response after exactly [k + 1] attempts
    of the same request.  With [k = 0]: a response of any status, also 500,
    is returned after one attempt. *)
Theorem transport_recovers_from_exceptions
    (rt : RequestType.t) (ep : string) (h : option (gmap string JValue))
    (d : Data) (j : option (gmap string JValue))
    (f : option (gmap string FilePart)) (rc : Z) (k : nat) (s : State)
    (r : NetworkResponse) :
  (k ≤ Z.to_nat (MAX_RETRY_COUNT - rc))%nat →
  (raisesFirst k (mkRequest rt ep h d None f) s →
   server s (sent s ++ repeat (mkRequest rt ep h d None f) k)
     (mkRequest rt ep h d None f) = Responded r →
   genericRequest rt ep h d f rc s
   = (Ok r, withSent s (sent s ++ repeat (mkRequest rt ep h d None f) (S k))))
  ∧ (raisesFirst k (mkRequest RequestType.get ep h d j None) s →
     server s (sent s ++ repeat (mkRequest RequestType.get ep h d j None) k)
       (mkRequest RequestType.get ep h d j None) = Responded r →
     get ep h d j rc s
     = (Ok r,
        withSent s
          (sent s ++ repeat (mkRequest RequestType.get ep h d j None) (S k))))
  ∧ (raisesFirst k (mkRequest RequestType.post ep h d j None) s →
     server s (sent s ++ repeat (mkRequest RequestType.post ep h d j None) k)
       (mkRequest RequestType.post ep h d j None) = Responded r →
     post ep h d j rc s
     = (Ok r,
        withSent s
          (sent s ++ repeat (mkRequest RequestType.post ep h d j None) (S k)))).
Proof.
  intros Hk. split; [|split]; intros Hraise Hresp.
  - rewrite genericRequest_loop. apply sendUpTo_after_raises; assumption.
  - rewrite get_loop. apply sendUpTo_after_raises; assumption.
  - rewrite post_loop. apply sendUpTo_after_raises; assumption.
Qed.

End TransportRecovery.

Section TransportOutcomes.

Import RequestsManager.

Lemma transport_recovers_from_exceptions_witness :
  let s := Examples.client (Examples.flaky 2 Examples.r200) None None ∅ in
  let q := mkRequest RequestType.post "dummy/add" None NoData None None in
  genericRequest RequestType.post "dummy/add" None NoData None 0 s
  = (Ok Examples.r200, withSent s [q; q; q]).
Proof.
  intros s q.
  apply (transport_recovers_from_exceptions RequestType.post "dummy/add" None
           NoData None None 0 2 s Examples.r200).
  - unfold MAX_RETRY_COUNT. simpl. lia.
  - intros i Hi. destruct i as [|[|i]]; [reflexivity|reflexivity|lia].
  - reflexivity.
Defined.

(** X2: a transport call ends in one of two ways, and in both it has sent
    copies of the one request and changed nothing else: either the HTTP
    library raised at the first [k] attempts, with [k] at most the retries
    left, and answered the next one, and that response is returned; or it
    raised at every attempt and [RequestFailedError] is raised, so that no
    other exception leaves the transport. *)
Theorem transport_outcomes
    (rt : RequestType.t) (ep : string) (h : option (gmap string JValue))
    (d : Data) (j : option (gmap string JValue))
    (f : option (gmap string FilePart)) (rc : Z) (s : State) :
  let n := Z.to_nat (MAX_RETRY_COUNT - rc) in
  endsAs n (mkRequest rt ep h d None f) s (genericRequest rt ep h d f rc s)
  ∧ endsAs n (mkRequest RequestType.get ep h d j None) s (get ep h d j rc s)
  ∧ endsAs n (mkRequest RequestType.post ep h d j None) s (post ep h d j rc s).
Proof.
  intros n. unfold endsAs.
  rewrite genericRequest_loop, get_loop, post_loop. fold (retriesLeft rc).
  split; [|split].
  - destruct (sendUpTo_outcome (retriesLeft rc) (mkRequest rt ep h d None f) s)
      as [(k & r & H)|H]; [left; exists k, r; exact H|right; exact H].
  - destruct (sendUpTo_outcome (retriesLeft rc)
                (mkRequest RequestType.get ep h d j None) s)
      as [(k & r & H)|H]; [left; exists k, r; exact H|right; exact H].
  - destruct (sendUpTo_outcome (retriesLeft rc)
                (mkRequest RequestType.post ep h d j None) s)
      as [(k & r & H)|H]; [left; exists k, r; exact H|right; exact H].
Qed.

End TransportOutcomes.

(** ** Login, refresh and reset *)

Section Credentials.

Import NetworkManagerBase.

(** The access token is in the header exactly when the client has one. *)
Lemma requestHeader_token s :
  _requestHeader s !! apiTokenHeaderField = apiToken s.
Proof.
  unfold _requestHeader. destruct (apiToken s) as [t|].
  - apply lookup_insert_eq.
  - reflexivity.
Qed.

Lemma tokenOf_refreshRequest s :
  tokenOf (refreshRequest s)
  = match refreshTokenValue s with
    | Some t => Some t
    | None => apiToken s
    end.
Proof.
  unfold tokenOf, refreshRequest. simpl.
  destruct (refreshTokenValue s) as [t|].
  - apply lookup_insert_eq.
  - apply requestHeader_token.
Qed.

(** [_authenticate] is one transport call of [loginRequest], followed by the
    update of the tokens. *)
Lemma authenticate_eq s :
  _authenticate s
  = match sendUpTo 3 (loginRequest s) s with
    | (Ok r, s1) => (Ok r, loggedIn r s1)
    | (Raise e, s1) => (Raise e, s1)
    end.
Proof.
  unfold _authenticate. run_monad. rewrite post_loop.
  change (retriesLeft 0) with 3%nat. fold (loginRequest s).
  destruct (sendUpTo 3 (loginRequest s) s) as [[r|e] s1]; [|reflexivity].
  unfold loggedIn.
  destruct (json r !! apiTokenKey); destruct (json r !! refreshTokenKey);
    reflexivity.
Qed.

(** X3: when the login request gets a response, [_authenticate] returns it
    after that one request and stores what the response holds, whatever its
    status: the value at "token" becomes the access token that the headers
    of later requests carry, the value at "refresh_token" becomes the
    refresh token that a later refresh request carries; a token whose key is
    missing stays as it was; the disk is not touched. *)
Theorem login_stores_tokens (s : State) (r : NetworkResponse) :
  server s (sent s) (loginRequest s) = Responded r →
  let s' := loggedIn r (withSent s (sent s ++ [loginRequest s])) in
  _authenticate s = (Ok r, s')
  ∧ sent s' = sent s ++ [loginRequest s]
  ∧ (∀ v, json r !! apiTokenKey = Some v →
       apiToken s' = pyOptional v
       ∧ (∀ ep files p, tokenOf (uploadRequest ep files p s') = pyOptional v)
       ∧ (∀ ep p, tokenOf (downloadRequest ep p s') = pyOptional v)
       ∧ (∀ ep, tokenOf (deleteRequest ep s') = pyOptional v))
  ∧ (∀ v, json r !! refreshTokenKey = Some v → v ≠ JNull →
       refreshTokenValue s' = Some v ∧ tokenOf (refreshRequest s') = Some v)
  ∧ (json r !! apiTokenKey = None → apiToken s' = apiToken s)
  ∧ (json r !! refreshTokenKey = None →
     refreshTokenValue s' = refreshTokenValue s)
  ∧ fs s' = fs s.
Proof.
  intros Hr s'.
  assert (sent s' = sent s ++ [loginRequest s]) as Hsent.
  { unfold s', loggedIn.
    destruct (json r !! apiTokenKey); destruct (json r !! refreshTokenKey);
      reflexivity. }
  assert (apiToken s'
          = match json r !! apiTokenKey with
            | Some v => pyOptional v
            | None => apiToken s
            end) as Htoken.
  { unfold s', loggedIn.
    destruct (json r !! apiTokenKey); destruct (json r !! refreshTokenKey);
      reflexivity. }
  assert (refreshTokenValue s'
          = match json r !! refreshTokenKey with
            | Some v => pyOptional v
            | None => refreshTokenValue s
            end) as Hrefresh.
  { unfold s', loggedIn.
    destruct (json r !! apiTokenKey); destruct (json r !! refreshTokenKey);
      reflexivity. }
  split; [|split; [exact Hsent|split; [|split; [|split; [|split]]]]].
  - rewrite authenticate_eq, (sendUpTo_responded 3 _ s r Hr). reflexivity.
  - intros v Hv. rewrite Hv in Htoken.
    split; [exact Htoken|]. split; [|split].
    + intros ep files p. unfold tokenOf, uploadRequest. simpl.
      rewrite lookup_delete_ne by discriminate.
      rewrite requestHeader_token. exact Htoken.
    + intros ep p. unfold tokenOf, downloadRequest. simpl.
      rewrite requestHeader_token. exact Htoken.
    + intros ep. unfold tokenOf, deleteRequest. simpl.
      rewrite requestHeader_token. exact Htoken.
  - intros v Hv Hnull. rewrite Hv in Hrefresh.
    assert (refreshTokenValue s' = Some v) as E
      by (rewrite Hrefresh; destruct v; simpl; congruence).
    split; [exact E|]. rewrite tokenOf_refreshRequest, E. reflexivity.
  - intros Hnone. rewrite Hnone in Htoken. exact Htoken.
  - intros Hnone. rewrite Hnone in Hrefresh. exact Hrefresh.
  - unfold s', loggedIn.
    destruct (json r !! apiTokenKey); destruct (json r !! refreshTokenKey);
      reflexivity.
Qed.

Lemma login_stores_tokens_witness :
  let s := Examples.client (Examples.always Examples.loginOk) None None ∅ in
  fst (_authenticate s) = Ok Examples.loginOk
  ∧ apiToken (snd (_authenticate s)) = Some (JStr "access-1")
  ∧ refreshTokenValue (snd (_authenticate s)) = Some (JStr "refresh-1").
Proof.
  intros s.
  destruct (login_stores_tokens s Examples.loginOk eq_refl)
    as (Hrun & _ & Htoken & Hrefresh & _).
  rewrite Hrun. split; [reflexivity|]. split.
  - apply (Htoken (JStr "access-1")). reflexivity.
  - apply (Hrefresh (JStr "refresh-1")); [reflexivity|discriminate].
Defined.

(** X4: [authenticate] installs the basic credentials before the login,
    so they are set whatever the login does, and otherwise does what
    [_authenticate] does; a [reset] after it leaves no access token, no
    refresh token and no basic credentials, later requests carry no token,
    and the requests sent and the disk are as the login left them. *)
Theorem reset_after_authenticate (username password : string) (c : Client) :
  let out := authenticate username password c in
  let c1 := snd out in
  let c2 := reset c1 in
  RequestsManager.isAuthSet c1 = true
  ∧ sessionAuth c1 = Some (username, password)
  ∧ (fst out, net c1) = _authenticate (net c)
  ∧ RequestsManager.isAuthSet c2 = false
  ∧ apiToken (net c2) = None
  ∧ refreshTokenValue (net c2) = None
  ∧ tokenOf (loginRequest (net c2)) = None
  ∧ tokenOf (refreshRequest (net c2)) = None
  ∧ (∀ ep files p, tokenOf (uploadRequest ep files p (net c2)) = None)
  ∧ sent (net c2) = sent (net c1)
  ∧ fs (net c2) = fs (net c1).
Proof.
  intros out c1 c2. unfold c2, c1, out, authenticate.
  destruct (_authenticate (net (RequestsManager.setAuth username password c)))
    as [res s1] eqn:E. simpl in E. simpl.
  repeat split; try reflexivity.
  - symmetry. exact E.
Qed.

(** X5: [authenticateWithRefreshToken] stores the token it is given before
    it refreshes, so the token is the client's refresh token whatever the
    refresh does; the one request it sends, at most four times, carries
    that token; when the request is answered the response is returned, and
    the access token is the value of its "token" key when it has one. *)
Theorem authenticateWithRefreshToken_stores_token (token : string) (s : State) :
  let s1 := withRefreshToken s (Some (JStr token)) in
  let out := authenticateWithRefreshToken token s in
  refreshTokenValue (snd out) = Some (JStr token)
  ∧ tokenOf (refreshRequest s1) = Some (JStr token)
  ∧ (∃ k, (1 ≤ k ≤ 4)%nat
          ∧ sent (snd out) = sent s ++ repeat (refreshRequest s1) k)
  ∧ fs (snd out) = fs s
  ∧ (∀ rr, server s (sent s) (refreshRequest s1) = Responded rr →
       out = (Ok rr, refreshed rr (withSent s1 (sent s ++ [refreshRequest s1])))
       ∧ (∀ v, json rr !! apiTokenKey = Some v →
               apiToken (snd out) = pyOptional v)
       ∧ (json rr !! apiTokenKey = None → apiToken (snd out) = apiToken s)).
Proof.
  intros s1 out.
  assert (out = refreshToken s1) as Hout by reflexivity.
  rewrite Hout, refreshToken_eq.
  destruct (sendUpTo_sent 3 (refreshRequest s1) s1) as (k & Hk & E).
  split; [|split; [|split; [|split]]].
  - destruct (sendUpTo 3 (refreshRequest s1) s1) as [[rr|e] s2];
      simpl in E; subst s2; simpl; [|reflexivity].
    unfold refreshed. destruct (json rr !! apiTokenKey); reflexivity.
  - rewrite tokenOf_refreshRequest. reflexivity.
  - exists k. split; [exact Hk|].
    destruct (sendUpTo 3 (refreshRequest s1) s1) as [[rr|e] s2];
      simpl in E; subst s2; simpl; [|reflexivity].
    unfold refreshed. destruct (json rr !! apiTokenKey); reflexivity.
  - destruct (sendUpTo 3 (refreshRequest s1) s1) as [[rr|e] s2];
      simpl in E; subst s2; simpl; [|reflexivity].
    unfold refreshed. destruct (json rr !! apiTokenKey); reflexivity.
  - intros rr Hrr.
    rewrite (sendUpTo_responded 3 (refreshRequest s1) s1 rr Hrr).
    split; [reflexivity|]. simpl. unfold refreshed. split.
    + intros v Hv. rewrite Hv. reflexivity.
    + intros Hnone. rewrite Hnone. reflexivity.
Qed.

(** X6: the request of [refreshToken] carries the refresh token where other
    requests carry the access token, and the access token when the client
    has no refresh token.  [refreshToken] never changes the refresh token or
    the disk; when its request is answered, the access token becomes the
    value of the "token" key of the response, also when the response has
    failed, and stays as it was when there is no such key. *)
Theorem refreshToken_effect (s : State) :
  tokenOf (refreshRequest s)
  = match refreshTokenValue s with Some t => Some t | None => apiToken s end
  ∧ refreshTokenValue (snd (refreshToken s)) = refreshTokenValue s
  ∧ fs (snd (refreshToken s)) = fs s
  ∧ (∀ rr, server s (sent s) (refreshRequest s) = Responded rr →
       refreshToken s
       = (Ok rr, refreshed rr (withSent s (sent s ++ [refreshRequest s])))
       ∧ (∀ v, json rr !! apiTokenKey = Some v →
               apiToken (snd (refreshToken s)) = pyOptional v)
       ∧ (json rr !! apiTokenKey = None →
          apiToken (snd (refreshToken s)) = apiToken s)).
Proof.
  split; [apply tokenOf_refreshRequest|].
  split; [apply refreshToken_netOnly|]. split; [apply refreshToken_netOnly|].
  intros rr Hrr. rewrite refreshToken_eq, (sendUpTo_responded 3 _ s rr Hrr).
  split; [reflexivity|]. simpl. unfold refreshed. split.
  - intros v Hv. rewrite Hv. reflexivity.
  - intros Hnone. rewrite Hnone. reflexivity.
Qed.

End Credentials.

(** ** The operations that retry: what each kind of response leads to *)

Section Responses.

Import NetworkManagerBase.

Lemma withSent_id s : withSent s (sent s) = s.
Proof. destruct s. reflexivity. Qed.

Lemma jsonAttempt_eq ep rt p h s :
  jsonAttempt ep rt p h s = sendUpTo 3 (jsonRequest ep rt p h) s.
Proof. unfold jsonAttempt. rewrite genericRequest_loop. reflexivity. Qed.

Lemma uploadAttempt_eq ep files p s :
  uploadAttempt ep files p s = sendUpTo 3 (uploadRequest ep files p s) s.
Proof.
  unfold uploadAttempt. run_monad. rewrite genericRequest_loop. reflexivity.
Qed.

Lemma downloadAttempt_loop ep p s :
  downloadAttempt ep p s = sendUpTo 3 (downloadRequest ep p s) s.
Proof. rewrite downloadAttempt_eq, get_loop. reflexivity. Qed.

Lemma genericDelete_eq ep s :
  genericDelete ep s = sendUpTo 3 (deleteRequest ep s) s.
Proof.
  unfold genericDelete. run_monad. rewrite genericRequest_loop. reflexivity.
Qed.

Lemma shouldRetry_final rc r s : final r → shouldRetry rc r s = (Ok false, s).
Proof.
  unfold final, HttpCode.unauthorized, HttpCode.internalServerError,
    HttpCode.serviceUnavailable.
  intros (H401 & H500 & H503).
  unfold shouldRetry, isUnauthorized, HttpCode.unauthorized,
    HttpCode.internalServerError, HttpCode.serviceUnavailable.
  destruct (rc =? MAX_RETRY_COUNT); [reflexivity|].
  destruct (statusCode r =? 401) eqn:E1; [lia|].
  destruct (statusCode r =? 500) eqn:E2; [lia|].
  destruct (statusCode r =? 503) eqn:E3; [lia|]. reflexivity.
Qed.

Lemma retrying_final fuel attempt finish rc s r s1 :
  attempt s = (Ok r, s1) → final r →
  retrying (S fuel) attempt finish rc s = finish r s1.
Proof.
  intros Ha Hfinal.
  rewrite retrying_unfold, Ha, (shouldRetry_final rc r s1 Hfinal). reflexivity.
Qed.

Lemma saveResponse_not_ok dest r s : ok r = false → saveResponse dest r s = (Ok r, s).
Proof. intros H. rewrite saveResponse_eq, H. reflexivity. Qed.

Lemma serverError_not_ok r : serverError r → ok r = false.
Proof.
  unfold serverError, ok, HttpCode.internalServerError,
    HttpCode.serviceUnavailable. intros [-> | ->]; reflexivity.
Qed.

Lemma unauthorized_not_ok r : isUnauthorized r = true → ok r = false.
Proof.
  unfold isUnauthorized, ok, HttpCode.unauthorized. intros H.
  apply Z.eqb_eq in H. rewrite H. reflexivity.
Qed.

(** X7: a response whose status is none of 401, 500 and 503 ends the
    operation at once, at every retry count: [genericJSONRequest] and
    [genericUpload] return it after the one request, and so does
    [genericDownload] when the response is not ok, leaving the disk as it
    was. *)
Theorem other_statuses_are_returned_at_once
    (fuel : nat) (ep : string) (rt : RequestType.t) (dest : Path)
    (files : option (gmap string FilePart))
    (p h : option (gmap string JValue)) (rc : Z) (s : State)
    (r : NetworkResponse) :
  final r →
  (server s (sent s) (jsonRequest ep rt (default ∅ p) (jsonHeaders h s))
   = Responded r →
   genericJSONRequest (S fuel) ep rt p h rc s
   = (Ok r,
      withSent s
        (sent s ++ [jsonRequest ep rt (default ∅ p) (jsonHeaders h s)])))
  ∧ (server s (sent s) (uploadRequest ep files (default ∅ p) s) = Responded r →
     genericUpload (S fuel) ep files p rc s
     = (Ok r, withSent s (sent s ++ [uploadRequest ep files (default ∅ p) s])))
  ∧ (server s (sent s) (downloadRequest ep (default ∅ p) s) = Responded r →
     ok r = false →
     genericDownload (S fuel) ep dest p rc s
     = (Ok r, withSent s (sent s ++ [downloadRequest ep (default ∅ p) s]))).
Proof.
  intros Hfinal. split; [|split].
  - intros Hr. rewrite genericJSONRequest_retrying.
    rewrite (retrying_final fuel _ ret rc s r
               (withSent s (sent s ++
                  [jsonRequest ep rt (default ∅ p) (jsonHeaders h s)])));
      [reflexivity| |exact Hfinal].
    rewrite jsonAttempt_eq. apply sendUpTo_responded. exact Hr.
  - intros Hr. rewrite genericUpload_retrying.
    rewrite (retrying_final fuel _ ret rc s r
               (withSent s (sent s ++ [uploadRequest ep files (default ∅ p) s])));
      [reflexivity| |exact Hfinal].
    rewrite uploadAttempt_eq. apply sendUpTo_responded. exact Hr.
  - intros Hr Hok. rewrite genericDownload_retrying.
    rewrite (retrying_final fuel _ (saveResponse dest) rc s r
               (withSent s (sent s ++ [downloadRequest ep (default ∅ p) s])));
      [apply saveResponse_not_ok; exact Hok| |exact Hfinal].
    rewrite downloadAttempt_loop. apply sendUpTo_responded. exact Hr.
Qed.

Lemma other_statuses_are_returned_at_once_witness :
  let s := Examples.client (Examples.always Examples.r404)
             (Some (JStr "access-1")) None Examples.disk in
  genericDownload 1 "model/download" ["data"; "sample.bin"] None 0 s
  = (Ok Examples.r404,
     withSent s (sent s ++ [downloadRequest "model/download" ∅ s])).
Proof.
  intros s.
  apply (other_statuses_are_returned_at_once 0 "model/download"
           RequestType.get ["data"; "sample.bin"] None None None 0 s
           Examples.r404).
  - repeat split; discriminate.
  - reflexivity.
  - reflexivity.
Defined.

(** The policy against a request that is always answered by a server error. *)
Lemma retrying_server_errors attempt finish q s :
  (∀ l, ∃ r, attempt (withSent s l) = (Ok r, withSent s (l ++ [q]))
             ∧ serverError r) →
  (∀ r s1, serverError r → finish r s1 = (Ok r, s1)) →
  ∀ m rc l extra,
    Z.to_nat (MAX_RETRY_COUNT - rc) = m → rc ≤ MAX_RETRY_COUNT →
    ∃ r, serverError r
         ∧ retrying (S m + extra) attempt finish rc (withSent s l)
           = (Ok r, withSent s (l ++ repeat q (S m))).
Proof.
  unfold MAX_RETRY_COUNT. intros Hattempt Hfinish.
  induction m as [|m IH]; intros rc l extra Hm Hrc.
  - assert (rc = MAX_RETRY_COUNT) as -> by (unfold MAX_RETRY_COUNT; lia).
    change (1 + extra)%nat with (S extra). rewrite retrying_at_limit.
    run_monad. destruct (Hattempt l) as (r & -> & Hr).
    exists r. split; [exact Hr|]. apply Hfinish. exact Hr.
  - change (S (S m) + extra)%nat with (S (S m + extra)).
    rewrite retrying_unfold. destruct (Hattempt l) as (r & -> & Hr).
    rewrite (shouldRetry_server_error rc r _)
      by (unfold MAX_RETRY_COUNT; auto; lia).
    destruct (IH (rc + 1) (l ++ [q]) extra ltac:(lia) ltac:(lia))
      as (r' & Hr' & E).
    exists r'. split; [exact Hr'|]. rewrite E. simpl.
    rewrite <- app_assoc. reflexivity.
Qed.

(** X8: while a request is answered by 500 or 503, an operation entered at a
    retry count of at most 3 sends it once and then once more for every
    count below 3, four times from the default count 0, and then returns the
    last of those responses; nothing is raised, no refresh is sent, and
    [genericDownload] leaves the disk as it was. *)
Theorem server_errors_are_retried_to_the_limit
    (extra : nat) (ep : string) (rt : RequestType.t) (dest : Path)
    (files : option (gmap string FilePart))
    (p h : option (gmap string JValue)) (rc : Z) (s : State) :
  rc ≤ MAX_RETRY_COUNT →
  let n := S (Z.to_nat (MAX_RETRY_COUNT - rc)) in
  let qj := jsonRequest ep rt (default ∅ p) (jsonHeaders h s) in
  let qu := uploadRequest ep files (default ∅ p) s in
  let qd := downloadRequest ep (default ∅ p) s in
  (rc = 0 → n = 4%nat)
  ∧ ((∀ hist, ∃ r, server s hist qj = Responded r ∧ serverError r) →
     ∃ r, serverError r
          ∧ genericJSONRequest (n + extra) ep rt p h rc s
            = (Ok r, withSent s (sent s ++ repeat qj n)))
  ∧ ((∀ hist, ∃ r, server s hist qu = Responded r ∧ serverError r) →
     ∃ r, serverError r
          ∧ genericUpload (n + extra) ep files p rc s
            = (Ok r, withSent s (sent s ++ repeat qu n)))
  ∧ ((∀ hist, ∃ r, server s hist qd = Responded r ∧ serverError r) →
     ∃ r, serverError r
          ∧ genericDownload (n + extra) ep dest p rc s
            = (Ok r, withSent s (sent s ++ repeat qd n))).
Proof.
  intros Hrc n qj qu qd. split; [intros ->; reflexivity|].
  split; [|split]; intros Hsrv.
  - rewrite genericJSONRequest_retrying.
    destruct (retrying_server_errors
                (jsonAttempt ep rt (default ∅ p) (jsonHeaders h s)) ret qj s)
      with (m := Z.to_nat (MAX_RETRY_COUNT - rc)) (rc := rc) (l := sent s)
           (extra := extra) as (r & Herr & E); try reflexivity; try assumption.
    + intros l. destruct (Hsrv l) as (r & Hr & Herr). exists r.
      split; [|exact Herr]. rewrite jsonAttempt_eq.
      apply sendUpTo_responded. exact Hr.
    + rewrite withSent_id in E. exists r. split; [exact Herr|exact E].
  - rewrite genericUpload_retrying.
    destruct (retrying_server_errors
                (uploadAttempt ep files (default ∅ p)) ret qu s)
      with (m := Z.to_nat (MAX_RETRY_COUNT - rc)) (rc := rc) (l := sent s)
           (extra := extra) as (r & Herr & E); try reflexivity; try assumption.
    + intros l. destruct (Hsrv l) as (r & Hr & Herr). exists r.
      split; [|exact Herr]. rewrite uploadAttempt_eq.
      apply sendUpTo_responded. exact Hr.
    + rewrite withSent_id in E. exists r. split; [exact Herr|exact E].
  - rewrite genericDownload_retrying.
    destruct (retrying_server_errors
                (downloadAttempt ep (default ∅ p)) (saveResponse dest) qd s)
      with (m := Z.to_nat (MAX_RETRY_COUNT - rc)) (rc := rc) (l := sent s)
           (extra := extra) as (r & Herr & E); try reflexivity; try assumption.
    + intros l. destruct (Hsrv l) as (r & Hr & Herr). exists r.
      split; [|exact Herr]. rewrite downloadAttempt_loop.
      apply sendUpTo_responded. exact Hr.
    + intros r s1 Herr. apply saveResponse_not_ok, serverError_not_ok.
      exact Herr.
    + rewrite withSent_id in E. exists r. split; [exact Herr|exact E].
Qed.

Lemma server_errors_are_retried_to_the_limit_witness :
  let s := Examples.client (Examples.always Examples.r500) None None ∅ in
  0 ≤ MAX_RETRY_COUNT
  ∧ ∃ r, serverError r
         ∧ genericUpload (4 + 996) "upload/chunk" None None 0 s
           = (Ok r, withSent s (sent s ++ repeat (uploadRequest "upload/chunk" None ∅ s) 4)).
Proof.
  intros s. split; [unfold MAX_RETRY_COUNT; lia|].
  destruct (server_errors_are_retried_to_the_limit 996 "upload/chunk"
              RequestType.post [] None None None 0 s)
    as (_ & _ & Hup & _).
  - unfold MAX_RETRY_COUNT. lia.
  - apply Hup. intros hist. exists Examples.r500.
    split; [reflexivity|left; reflexivity].
Defined.

(** X9: when the HTTP library raises at every attempt of the request of an
    operation, the operation raises the transport's [RequestFailedError]
    after the four attempts of one transport call: the retry policy is not
    consulted, no refresh is sent and the client does not send the request
    again, at any retry count. *)
Theorem transport_failure_ends_the_operation
    (fuel : nat) (ep : string) (rt : RequestType.t) (dest : Path)
    (files : option (gmap string FilePart))
    (p h : option (gmap string JValue)) (rc : Z) (s : State) :
  let qj := jsonRequest ep rt (default ∅ p) (jsonHeaders h s) in
  let qu := uploadRequest ep files (default ∅ p) s in
  let qd := downloadRequest ep (default ∅ p) s in
  let qx := deleteRequest ep s in
  ((∀ hist, server s hist qj = Raised) →
   genericJSONRequest (S fuel) ep rt p h rc s
   = (Raise RequestFailedError, withSent s (sent s ++ repeat qj 4)))
  ∧ ((∀ hist, server s hist qu = Raised) →
     genericUpload (S fuel) ep files p rc s
     = (Raise RequestFailedError, withSent s (sent s ++ repeat qu 4)))
  ∧ ((∀ hist, server s hist qd = Raised) →
     genericDownload (S fuel) ep dest p rc s
     = (Raise RequestFailedError, withSent s (sent s ++ repeat qd 4)))
  ∧ ((∀ hist, server s hist qx = Raised) →
     genericDelete ep s
     = (Raise RequestFailedError, withSent s (sent s ++ repeat qx 4))).
Proof.
  intros qj qu qd qx. split; [|split; [|split]]; intros Hraise.
  - rewrite genericJSONRequest_retrying, retrying_unfold, jsonAttempt_eq.
    fold qj. rewrite (sendUpTo_all_raise 3 qj s Hraise). reflexivity.
  - rewrite genericUpload_retrying, retrying_unfold, uploadAttempt_eq.
    fold qu. rewrite (sendUpTo_all_raise 3 qu s Hraise). reflexivity.
  - rewrite genericDownload_retrying, retrying_unfold, downloadAttempt_loop.
    fold qd. rewrite (sendUpTo_all_raise 3 qd s Hraise). reflexivity.
  - rewrite genericDelete_eq. fold qx. apply sendUpTo_all_raise. exact Hraise.
Qed.

(** X10: when a request is answered 401 at a retry count other than 3 and
    the refresh that follows is answered by a response that has failed, the
    operation returns the 401 response: one request and one refresh were
    sent, the request is not sent again, and [genericDownload] leaves the
    disk as it was. *)
Theorem unauthorized_is_returned_when_refresh_fails
    (fuel : nat) (ep : string) (rt : RequestType.t) (dest : Path)
    (files : option (gmap string FilePart))
    (p h : option (gmap string JValue)) (rc : Z) (s : State)
    (r rr : NetworkResponse) :
  rc ≠ MAX_RETRY_COUNT →
  isUnauthorized r = true →
  hasFailed rr = true →
  let qj := jsonRequest ep rt (default ∅ p) (jsonHeaders h s) in
  let qu := uploadRequest ep files (default ∅ p) s in
  let qd := downloadRequest ep (default ∅ p) s in
  let after q := refreshed rr (withSent s ((sent s ++ [q]) ++ [refreshRequest s])) in
  (server s (sent s) qj = Responded r →
   server s (sent s ++ [qj]) (refreshRequest s) = Responded rr →
   genericJSONRequest (S fuel) ep rt p h rc s = (Ok r, after qj))
  ∧ (server s (sent s) qu = Responded r →
     server s (sent s ++ [qu]) (refreshRequest s) = Responded rr →
     genericUpload (S fuel) ep files p rc s = (Ok r, after qu))
  ∧ (server s (sent s) qd = Responded r →
     server s (sent s ++ [qd]) (refreshRequest s) = Responded rr →
     genericDownload (S fuel) ep dest p rc s = (Ok r, after qd)
     ∧ fs (after qd) = fs s).
Proof.
  intros Hrc H401 Hfailed qj qu qd after.
  assert (∀ q, server s (sent s ++ [q]) (refreshRequest s) = Responded rr →
            shouldRetry rc r (withSent s (sent s ++ [q]))
            = (Ok false, after q)) as Hretry.
  { intros q Hrr. unfold shouldRetry.
    replace (rc =? MAX_RETRY_COUNT) with false
      by (symmetry; apply Z.eqb_neq; exact Hrc).
    rewrite H401. run_monad. rewrite refreshToken_eq.
    change (refreshRequest (withSent s (sent s ++ [q])))
      with (refreshRequest s).
    rewrite (sendUpTo_responded 3 (refreshRequest s) _ rr) by exact Hrr.
    rewrite Hfailed. reflexivity. }
  split; [|split]; intros Hr Hrr.
  - rewrite genericJSONRequest_retrying, retrying_unfold, jsonAttempt_eq.
    fold qj. rewrite (sendUpTo_responded 3 qj s r Hr), (Hretry qj Hrr).
    reflexivity.
  - rewrite genericUpload_retrying, retrying_unfold, uploadAttempt_eq.
    fold qu. rewrite (sendUpTo_responded 3 qu s r Hr), (Hretry qu Hrr).
    reflexivity.
  - split.
    + rewrite genericDownload_retrying, retrying_unfold, downloadAttempt_loop.
      fold qd. rewrite (sendUpTo_responded 3 qd s r Hr), (Hretry qd Hrr).
      apply saveResponse_not_ok, unauthorized_not_ok. exact H401.
    + unfold after, refreshed. destruct (json rr !! apiTokenKey); reflexivity.
Qed.

Lemma unauthorized_is_returned_when_refresh_fails_witness :
  let s := Examples.client (Examples.always Examples.r401)
             (Some (JStr "access-1")) (Some (JStr "refresh-1")) ∅ in
  let q := uploadRequest "upload/chunk" None ∅ s in
  genericUpload 1 "upload/chunk" None None 0 s
  = (Ok Examples.r401, withSent s [q; refreshRequest s]).
Proof.
  intros s q.
  destruct (unauthorized_is_returned_when_refresh_fails 0 "upload/chunk"
              RequestType.post [] None None None 0 s Examples.r401
              Examples.r401)
    as (_ & Hup & _).
  - discriminate.
  - reflexivity.
  - reflexivity.
  - apply Hup; reflexivity.
Defined.

End Responses.

(** ** The operations that retry: what they keep, send and raise *)

Section Invariants.

Import NetworkManagerBase.

Lemma retrying_netOnly fuel attempt finish rc s :
  (∀ s1, netOnly s1 (snd (attempt s1))) →
  (∀ r s1, netOnly s1 (snd (finish r s1))) →
  netOnly s (snd (retrying fuel attempt finish rc s)).
Proof.
  intros Hattempt Hfinish.
  destruct (retrying_cases fuel attempt finish rc s Hattempt)
    as [(e & _ & Hn)|(r & s2 & Hn & ->)]; [exact Hn|].
  eapply netOnly_trans; [exact Hn|apply Hfinish].
Qed.

Lemma saveResponse_sent dest r s : sent (snd (saveResponse dest r s)) = sent s.
Proof.
  rewrite saveResponse_eq. destruct (ok r); [|reflexivity].
  destruct (Fs.is_dir (fs s) dest); [reflexivity|]. cbv zeta.
  assert (sent (if Fs.exists_ (fs s) dest
                then did (PathUnlink dest) (Fs.unlink (fs s) dest) s else s)
          = sent s) as E
    by (destruct (Fs.exists_ (fs s) dest); reflexivity).
  destruct (Fs.mkdir _ (Fs.parent dest)) as [f1|e]; [|exact E].
  destruct (Fs.write f1 dest (content r)); exact E.
Qed.

Lemma sendsOnly_any s s' : sent s' = sent s → sendsOnly (fun _ => True) s s'.
Proof.
  intros E. exists []. split; [rewrite E; symmetry; apply app_nil_r|constructor].
Qed.

(** The first request of a call of the policy. *)
Lemma retrying_first fuel attempt finish rc s q :
  (∀ s1, ∃ k, sendsOnly (fun _ => True) s1 (snd (attempt s1))
              ∧ (s1 = s → (1 ≤ k)%nat
                          ∧ snd (attempt s) = withSent s (sent s ++ repeat q k))) →
  (∀ r s1, sent (snd (finish r s1)) = sent s1) →
  ∃ rest, sent (snd (retrying (S fuel) attempt finish rc s)) = sent s ++ q :: rest.
Proof.
  intros Hattempt Hfinish.
  destruct (Hattempt s) as (k & _ & Hs). destruct (Hs eq_refl) as (Hk & E).
  assert (∀ s2, sendsOnly (fun _ => True) (snd (attempt s)) s2 →
            ∃ rest, sent s2 = sent s ++ q :: rest) as Hext.
  { intros s2 (l & El & _). rewrite El, E. simpl.
    destruct k as [|k]; [lia|]. simpl. exists (repeat q k ++ l).
    rewrite <- app_assoc. reflexivity. }
  rewrite retrying_unfold.
  destruct (attempt s) as [[r|e] s1]; simpl in Hext;
    [|apply Hext, sendsOnly_refl].
  pose proof (shouldRetry_sendsOnly (fun _ => True) rc r s1 (fun _ _ => I))
    as H2.
  destruct (shouldRetry rc r s1) as [[[|]|e] s2]; simpl in H2.
  - apply Hext. eapply sendsOnly_trans; [exact H2|].
    apply retrying_sendsOnly; auto.
    + intros s3. destruct (Hattempt s3) as (k' & H & _). exact H.
    + intros r' s3. apply sendsOnly_any, Hfinish.
  - apply Hext. eapply sendsOnly_trans; [exact H2|].
    apply sendsOnly_any, Hfinish.
  - apply Hext. exact H2.
Qed.

Lemma sendUpTo_first n q s :
  ∃ k, sendsOnly (fun _ => True) s (snd (sendUpTo n q s))
       ∧ (1 ≤ k)%nat ∧ snd (sendUpTo n q s) = withSent s (sent s ++ repeat q k).
Proof.
  destruct (sendUpTo_sent n q s) as (k & Hk & E). exists k.
  split; [apply sendUpTo_sendsOnly; exact I|]. split; [lia|exact E].
Qed.

(** X11: when a request of [genericUpload] or [genericDownload] is answered
    401 at a retry count other than 3 and the refresh that follows is
    answered by a response that has not failed and holds a "token", the
    next request sent is the request again with the header built anew: it
    carries the token the refresh brought. *)
Theorem refreshed_token_is_sent_again
    (fuel : nat) (ep : string) (dest : Path)
    (files : option (gmap string FilePart)) (p : option (gmap string JValue))
    (rc : Z) (s : State) (r rr : NetworkResponse) (v : JValue) :
  rc ≠ MAX_RETRY_COUNT →
  isUnauthorized r = true →
  hasFailed rr = false →
  json rr !! apiTokenKey = Some v →
  let qu := uploadRequest ep files (default ∅ p) s in
  let qd := downloadRequest ep (default ∅ p) s in
  let after q := refreshed rr (withSent s ((sent s ++ [q]) ++ [refreshRequest s])) in
  (server s (sent s) qu = Responded r →
   server s (sent s ++ [qu]) (refreshRequest s) = Responded rr →
   tokenOf (uploadRequest ep files (default ∅ p) (after qu)) = pyOptional v
   ∧ ∃ rest,
       sent (snd (genericUpload (S (S fuel)) ep files p rc s))
       = sent s ++ qu :: refreshRequest s
           :: uploadRequest ep files (default ∅ p) (after qu) :: rest)
  ∧ (server s (sent s) qd = Responded r →
     server s (sent s ++ [qd]) (refreshRequest s) = Responded rr →
     tokenOf (downloadRequest ep (default ∅ p) (after qd)) = pyOptional v
     ∧ ∃ rest,
         sent (snd (genericDownload (S (S fuel)) ep dest p rc s))
         = sent s ++ qd :: refreshRequest s
             :: downloadRequest ep (default ∅ p) (after qd) :: rest).
Proof.
  intros Hrc H401 Hok Hv qu qd after.
  assert (∀ q, server s (sent s ++ [q]) (refreshRequest s) = Responded rr →
            shouldRetry rc r (withSent s (sent s ++ [q]))
            = (Ok true, after q)) as Hretry.
  { intros q Hrr. unfold shouldRetry.
    replace (rc =? MAX_RETRY_COUNT) with false
      by (symmetry; apply Z.eqb_neq; exact Hrc).
    rewrite H401. run_monad. rewrite refreshToken_eq.
    change (refreshRequest (withSent s (sent s ++ [q])))
      with (refreshRequest s).
    rewrite (sendUpTo_responded 3 (refreshRequest s) _ rr) by exact Hrr.
    rewrite Hok. reflexivity. }
  assert (∀ q, apiToken (after q) = pyOptional v) as Htoken.
  { intros q. unfold after, refreshed. rewrite Hv. reflexivity. }
  assert (∀ q, sent (after q) = (sent s ++ [q]) ++ [refreshRequest s]) as Hsent.
  { intros q. unfold after, refreshed. rewrite Hv. reflexivity. }
  split; intros Hr Hrr; split.
  - unfold tokenOf, uploadRequest. simpl.
    rewrite lookup_delete_ne by discriminate.
    rewrite requestHeader_token. apply Htoken.
  - rewrite genericUpload_retrying, retrying_unfold, uploadAttempt_eq.
    fold qu. rewrite (sendUpTo_responded 3 qu s r Hr), (Hretry qu Hrr).
    destruct (retrying_first fuel (uploadAttempt ep files (default ∅ p)) ret
                (rc + 1) (after qu)
                (uploadRequest ep files (default ∅ p) (after qu)))
      as (rest & E).
    + intros s1. rewrite uploadAttempt_eq.
      destruct (sendUpTo_first 3 (uploadRequest ep files (default ∅ p) s1) s1)
        as (k & H1 & Hk & H2).
      exists k. split; [exact H1|]. intros ->. rewrite uploadAttempt_eq.
      split; assumption.
    + intros r0 s1. reflexivity.
    + exists rest. rewrite E, Hsent, <- !app_assoc. reflexivity.
  - unfold tokenOf, downloadRequest. simpl.
    rewrite requestHeader_token. apply Htoken.
  - rewrite genericDownload_retrying, retrying_unfold, downloadAttempt_loop.
    fold qd. rewrite (sendUpTo_responded 3 qd s r Hr), (Hretry qd Hrr).
    destruct (retrying_first fuel (downloadAttempt ep (default ∅ p))
                (saveResponse dest) (rc + 1) (after qd)
                (downloadRequest ep (default ∅ p) (after qd)))
      as (rest & E).
    + intros s1. rewrite downloadAttempt_loop.
      destruct (sendUpTo_first 3 (downloadRequest ep (default ∅ p) s1) s1)
        as (k & H1 & Hk & H2).
      exists k. split; [exact H1|]. intros ->. rewrite downloadAttempt_loop.
      split; assumption.
    + intros r0 s1. apply saveResponse_sent.
    + exists rest. rewrite E, Hsent, <- !app_assoc. reflexivity.
Qed.

Lemma refreshed_token_is_sent_again_witness :
  let s := Examples.expired in
  let rr := mkResponse 200 [] {["token" := JStr "access-2"]} in
  let qu := uploadRequest "dummy/upload" None ∅ s in
  let s2 := refreshed rr (withSent s ((sent s ++ [qu]) ++ [refreshRequest s])) in
  tokenOf (uploadRequest "dummy/upload" None ∅ s2) = Some (JStr "access-2")
  ∧ ∃ rest,
      sent (snd (genericUpload 2 "dummy/upload" None None 0 s))
      = sent s ++ qu :: refreshRequest s
          :: uploadRequest "dummy/upload" None ∅ s2 :: rest.
Proof.
  intros s rr qu s2.
  destruct (refreshed_token_is_sent_again 0 "dummy/upload" [] None None 0 s
              Examples.r401 rr (JStr "access-2"))
    as [Hup _]; try reflexivity; try discriminate.
  apply Hup; reflexivity.
Defined.

Lemma jsonAttempt_netOnly ep rt p h s : netOnly s (snd (jsonAttempt ep rt p h s)).
Proof. rewrite jsonAttempt_eq. apply sendUpTo_netOnly. Qed.

Lemma uploadAttempt_netOnly ep files p s :
  netOnly s (snd (uploadAttempt ep files p s)).
Proof. rewrite uploadAttempt_eq. apply sendUpTo_netOnly. Qed.

Lemma genericJSONRequest_netOnly fuel ep rt p h rc s :
  netOnly s (snd (genericJSONRequest fuel ep rt p h rc s)).
Proof.
  rewrite genericJSONRequest_retrying. apply retrying_netOnly.
  - intros s1. apply jsonAttempt_netOnly.
  - intros r s1. apply netOnly_refl.
Qed.

Lemma genericUpload_netOnly fuel ep files p rc s :
  netOnly s (snd (genericUpload fuel ep files p rc s)).
Proof.
  rewrite genericUpload_retrying. apply retrying_netOnly.
  - intros s1. apply uploadAttempt_netOnly.
  - intros r s1. apply netOnly_refl.
Qed.

Lemma genericUpload_sendsOnly fuel ep parts p rc s :
  sendsOnly
    (fun q => endpoint q = refreshEndpoint
              ∨ (noContentType q ∧ method q = RequestType.post
                 ∧ endpoint q = ep ∧ files q = parts
                 ∧ data q = FormFields (default ∅ p)))
    s (snd (genericUpload fuel ep parts p rc s)).
Proof.
  rewrite genericUpload_retrying. apply retrying_sendsOnly.
  - intros q Hq. left. exact Hq.
  - intros s1. rewrite uploadAttempt_eq. apply sendUpTo_sendsOnly. right.
    split; [|repeat split]. unfold noContentType, uploadRequest. simpl.
    apply lookup_delete_eq.
  - intros r s1. apply sendsOnly_refl.
Qed.

(** X12: [genericJSONRequest], [genericUpload] and [genericDelete] never
    change the disk, the refresh token or the server's behaviour, whatever
    the server does and however they end, and the requests sent before are
    all still recorded, in their order, before the new ones. *)
Theorem network_operations_keep_the_disk
    (fuel : nat) (ep : string) (rt : RequestType.t)
    (files : option (gmap string FilePart))
    (p h : option (gmap string JValue)) (rc : Z) (s : State) :
  let kept (s' : State) :=
    fs s' = fs s ∧ refreshTokenValue s' = refreshTokenValue s
    ∧ server s' = server s ∧ ∃ new, sent s' = sent s ++ new in
  kept (snd (genericJSONRequest fuel ep rt p h rc s))
  ∧ kept (snd (genericUpload fuel ep files p rc s))
  ∧ kept (snd (genericDelete ep s)).
Proof.
  intros kept. unfold kept. split; [|split].
  - destruct (genericJSONRequest_netOnly fuel ep rt p h rc s)
      as (H1 & H2 & _ & H4 & _).
    destruct (genericJSONRequest_sendsOnly fuel ep rt p h rc s) as (l & E & _).
    repeat split; try assumption. exists l. exact E.
  - destruct (genericUpload_netOnly fuel ep files p rc s)
      as (H1 & H2 & _ & H4 & _).
    destruct (genericUpload_sendsOnly fuel ep files p rc s) as (l & E & _).
    repeat split; try assumption. exists l. exact E.
  - rewrite genericDelete_eq.
    destruct (sendUpTo_sent 3 (deleteRequest ep s) s) as (k & _ & E).
    rewrite E. repeat split. exists (repeat (deleteRequest ep s) k).
    reflexivity.
Qed.

(** X13: [genericDownload] leaves the disk as it was whenever it does not
    return an ok response: when it returns a response that is not ok, and
    when it raises [RequestFailedError], [RuntimeError] or
    [RecursionError]. *)
Theorem failed_download_keeps_the_disk
    (fuel : nat) (ep : string) (dest : Path)
    (p : option (gmap string JValue)) (rc : Z) (s : State) :
  match fst (genericDownload fuel ep dest p rc s) with
  | Ok r => ok r = false → fs (snd (genericDownload fuel ep dest p rc s)) = fs s
  | Raise e =>
      e = RequestFailedError ∨ e = RuntimeError ∨ e = RecursionError →
      fs (snd (genericDownload fuel ep dest p rc s)) = fs s
  end.
Proof.
  rewrite genericDownload_retrying.
  destruct (retrying_cases fuel (downloadAttempt ep (default ∅ p))
              (saveResponse dest) rc s (downloadAttempt_netOnly ep _))
    as [(e & He & Hn)|(r & s2 & Hn & ->)].
  - rewrite He. intros _. apply Hn.
  - assert (fs s2 = fs s) as Hfs by apply Hn.
    rewrite saveResponse_eq. destruct (ok r) eqn:Hok; [|intros _; exact Hfs].
    destruct (Fs.is_dir (fs s2) dest) eqn:Hdir; [intros _; exact Hfs|].
    cbv zeta.
    destruct (Fs.mkdir _ (Fs.parent dest)) as [f1|e] eqn:Hmk.
    + destruct (Fs.write f1 dest (content r)) as [f2|e] eqn:Hw; simpl.
      * intros Hno. congruence.
      * unfold Fs.write in Hw.
        destruct (Fs.is_dir f1 dest);
          [|destruct (Fs.is_dir f1 (Fs.parent dest))];
          try discriminate; injection Hw as <-;
          destruct (noEntry_kind f1 dest) as [E|E]; try rewrite E;
          intros [H|[H|H]]; discriminate.
    + simpl. unfold Fs.mkdir in Hmk.
      assert (∀ f d t e', Fs.mkdirFrom f d t = Raise e' →
                e' = FileExistsError ∨ e' = NotADirectoryError) as Hkind.
      { intros f d t. revert f d.
        induction t as [|c t IH]; intros f d e' H; simpl in H; [discriminate|].
        destruct (f !! (d ++ [c])) as [[|contents]|]; eauto.
        injection H as <-. destruct t; auto. }
      destruct (Hkind _ _ _ _ Hmk) as [-> | ->];
        intros [H|[H|H]]; discriminate.
Qed.

(** X14: every request [genericUpload] sends is either a refresh request or
    a POST to its endpoint with its files and its parameters as form fields
    and no "Content-Type" header. *)
Theorem genericUpload_sends_no_content_type
    (fuel : nat) (ep : string) (parts : option (gmap string FilePart))
    (p : option (gmap string JValue)) (rc : Z) (s : State) :
  ∃ new,
    sent (snd (genericUpload fuel ep parts p rc s)) = sent s ++ new
    ∧ Forall
        (fun q => endpoint q = refreshEndpoint
                  ∨ (noContentType q ∧ method q = RequestType.post
                     ∧ endpoint q = ep ∧ files q = parts
                     ∧ data q = FormFields (default ∅ p)))
        new.
Proof. apply genericUpload_sendsOnly. Qed.







End Invariants.

(** ** The chunked upload: failures *)

Section UploadFailures.

Import NetworkManagerBase ChunkUploadSession.

Lemma ok_final r : ok r = true → final r.
Proof.
  unfold ok, final, HttpCode.unauthorized, HttpCode.internalServerError,
    HttpCode.serviceUnavailable. intros H. lia.
Qed.

(** [__start] when its request is answered by a response that is not
    retried. *)
Lemma start_response fuel self s r :
  server s (sent s) (startRequest self s) = Responded r →
  final r →
  __start (S fuel) self s
  = ((if hasFailed r then Raise (NetworkRequestError r)
      else match json r !! "id" with
           | Some (JStr uploadId) => Ok uploadId
           | _ => Raise ValueError
           end),
     withSent s (sent s ++ [startRequest self s])).
Proof.
  intros Hr Hfinal. unfold __start. run_monad.
  rewrite genericJSONRequest_retrying.
  rewrite (retrying_final fuel _ ret 0 s r
             (withSent s (sent s ++ [startRequest self s])));
    [| |exact Hfinal].
  - run_monad. destruct (hasFailed r); [reflexivity|].
    destruct (json r !! "id") as [[| | |uid]|]; reflexivity.
  - rewrite jsonAttempt_eq. apply sendUpTo_responded. exact Hr.
Qed.

(** [__uploadChunk] when its request is answered by a response that is not
    retried. *)
Lemma uploadChunk_response fuel self s uid c start end_ r :
  filePath self ≠ [] →
  fs s !! filePath self = Some (File c) →
  server s (sent s) (chunkRequest self s uid c (start, end_)) = Responded r →
  final r →
  __uploadChunk (S fuel) self uid start end_ s
  = ((if hasFailed r then Raise (NetworkRequestError r) else Ok tt),
     withSent s (sent s ++ [chunkRequest self s uid c (start, end_)])).
Proof.
  intros Hpath Hfile Hr Hfinal. unfold __uploadChunk, _loadChunk. run_monad.
  rewrite (read_file _ _ c start (chunkSize self) Hpath Hfile).
  rewrite genericUpload_retrying.
  rewrite (retrying_final fuel _ ret 0 s r
             (withSent s (sent s ++ [chunkRequest self s uid c (start, end_)])));
    [| |exact Hfinal].
  - run_monad. destruct (hasFailed r); reflexivity.
  - rewrite uploadAttempt_eq. apply sendUpTo_responded. exact Hr.
Qed.

(** X16: when the start request of [run] is answered by a response that has
    failed with a status that is not retried, [run] raises
    [NetworkRequestError] with that response; when it is answered by an ok
    response without a string at "id", [run] raises [ValueError]; in both
    cases the start request is the only request sent, and no chunk is
    read or uploaded. *)
Theorem run_fails_before_the_first_chunk
    (fuel : nat) (self : ChunkUploadSession.t) (s : State)
    (r : NetworkResponse) :
  server s (sent s) (startRequest self s) = Responded r →
  final r →
  (hasFailed r = true →
   run (S fuel) self s
   = (Raise (NetworkRequestError r),
      withSent s (sent s ++ [startRequest self s])))
  ∧ (hasFailed r = false →
     (∀ uploadId, json r !! "id" ≠ Some (JStr uploadId)) →
     run (S fuel) self s
     = (Raise ValueError, withSent s (sent s ++ [startRequest self s]))).
Proof.
  intros Hr Hfinal. split.
  - intros Hfailed. unfold run. run_monad.
    rewrite (start_response fuel self s r Hr Hfinal), Hfailed. reflexivity.
  - intros Hok Hid. unfold run. run_monad.
    rewrite (start_response fuel self s r Hr Hfinal), Hok.
    destruct (json r !! "id") as [[| | |uid]|] eqn:E; try reflexivity.
    exfalso. apply (Hid uid). reflexivity.
Qed.

Lemma run_fails_before_the_first_chunk_witness :
  let s := Examples.client (Examples.always Examples.r404) None None
             Examples.disk in
  run 1 Examples.session s
  = (Raise (NetworkRequestError Examples.r404),
     withSent s (sent s ++ [startRequest Examples.session s])).
Proof.
  intros s.
  destruct (run_fails_before_the_first_chunk 0 Examples.session s
              Examples.r404) as [Hfail _].
  - reflexivity.
  - repeat split; discriminate.
  - apply Hfail. reflexivity.
Defined.

Lemma forEach_app {A} (l1 l2 : list A) body s :
  forEach (l1 ++ l2) body s
  = match forEach l1 body s with
    | (Ok _, s1) => forEach l2 body s1
    | (Raise e, s1) => (Raise e, s1)
    end.
Proof.
  revert s. induction l1 as [|x l1 IH]; intros s; simpl; [reflexivity|].
  run_monad. destruct (body x s) as [[[]|e] s1]; [apply IH|reflexivity].
Qed.

(** The loop of [run] over chunks that are all accepted. *)
Lemma chunks_uploaded fuel self s uid c (l : list Z) (before : list Request) :
  filePath self ≠ [] →
  fs s !! filePath self = Some (File c) →
  (∀ i hist, i ∈ l →
     ∃ r, server s hist
            (chunkRequest self s uid c
               (i * chunkSize self,
                Z.min (i * chunkSize self + chunkSize self) (fileSize self)))
          = Responded r ∧ ok r = true) →
  forEach l
    (fun i =>
       let start := i * chunkSize self in
       let end_ := Z.min (start + chunkSize self) (fileSize self) in
       __uploadChunk (S fuel) self uid start end_)
    (withSent s before)
  = (Ok tt,
     withSent s
       (before ++
        map (fun i =>
               chunkRequest self s uid c
                 (i * chunkSize self,
                  Z.min (i * chunkSize self + chunkSize self) (fileSize self)))
          l)).
Proof.
  intros Hpath Hfile. revert before.
  induction l as [|i l IH]; intros before Hacc; simpl.
  - rewrite app_nil_r. reflexivity.
  - run_monad.
    destruct (Hacc i before ltac:(left)) as (r & Hr & Hok).
    rewrite (uploadChunk_response fuel self (withSent s before) uid c _ _ r);
      try assumption; [|apply ok_final; exact Hok].
    unfold hasFailed. rewrite Hok. simpl.
    change (withSent (withSent s before) ?x) with (withSent s x).
    fold (forEach (A:=Z)).
    change (chunkRequest self (withSent s before)) with (chunkRequest self s).
    rewrite IH.
    + rewrite <- app_assoc. reflexivity.
    + intros j hist Hj. apply Hacc. right. exact Hj.
Qed.

(** X17: [run] stops at the first chunk that is rejected.  When the start
    and the first [k] chunks are accepted and the request of the next chunk
    is answered by a response that has failed with a status that is not
    retried, [run] raises [NetworkRequestError] with that response and has
    sent the start request and the first [k + 1] chunk requests, in order;
    the chunks after it are never sent. *)
Theorem run_stops_at_the_rejected_chunk
    (fuel : nat) (self : ChunkUploadSession.t) (s : State) (uid : string)
    (c : bytes) (r0 rb : NetworkResponse) (k : nat) :
  chunkSize self ≠ 0 →
  filePath self ≠ [] →
  fs s !! filePath self = Some (File c) →
  server s (sent s) (startRequest self s) = Responded r0 →
  ok r0 = true →
  json r0 !! "id" = Some (JStr uid) →
  (k < length (chunkRanges self))%nat →
  (∀ x hist, x ∈ take k (chunkRanges self) →
     ∃ r, server s hist (chunkRequest self s uid c x) = Responded r
          ∧ ok r = true) →
  (∀ x hist, chunkRanges self !! k = Some x →
     server s hist (chunkRequest self s uid c x) = Responded rb) →
  final rb →
  hasFailed rb = true →
  run (S fuel) self s
  = (Raise (NetworkRequestError rb),
     withSent s
       (sent s ++ startRequest self s
          :: map (chunkRequest self s uid c) (take (S k) (chunkRanges self)))).
Proof.
  intros HC Hpath Hfile Hr0 Hok0 Hid Hk Hacc Hbad Hfinal Hfailed.
  set (g := fun i : Z =>
              (i * chunkSize self,
               Z.min (i * chunkSize self + chunkSize self) (fileSize self))).
  set (L := range (chunkCount self)).
  assert (chunkRanges self = map g L) as Hranges by reflexivity.
  assert (k < length L)%nat as HkL
    by (rewrite Hranges, length_map in Hk; exact Hk).
  destruct (lookup_lt_is_Some_2 L k HkL) as (ik & Hik).
  assert (L = take k L ++ ik :: drop (S k) L) as HL
    by (symmetry; apply take_drop_middle; exact Hik).
  unfold run. run_monad.
  rewrite (start_response fuel self s r0 Hr0 (ok_final r0 Hok0)).
  unfold hasFailed at 1. rewrite Hok0, Hid. simpl negb. cbv iota.
  replace (chunkSize self =? 0) with false
    by (symmetry; apply Z.eqb_neq; exact HC).
  fold L. rewrite HL at 1. rewrite forEach_app.
  pose proof (chunks_uploaded fuel self s uid c (take k L)
                (sent s ++ [startRequest self s]) Hpath Hfile) as Hloop.
  cbv zeta in Hloop. rewrite Hloop; clear Hloop.
  - simpl forEach. run_monad.
    match goal with
    | |- context [__uploadChunk _ _ _ _ _ ?st] =>
        rewrite (uploadChunk_response fuel self st uid c _ _ rb Hpath Hfile)
    end.
    + rewrite Hfailed. f_equal.
      change (withSent (withSent s ?y) ?x) with (withSent s x). f_equal.
      rewrite Hranges, firstn_map, (take_S_r L k ik Hik), !map_app, map_map.
      simpl. rewrite <- !app_assoc. reflexivity.
    + apply (Hbad (g ik)). rewrite Hranges.
      change (map g L !! k) with ((g <$> L) !! k).
      rewrite list_lookup_fmap, Hik. reflexivity.
    + exact Hfinal.
  - intros i hist Hi. apply Hacc. rewrite Hranges, firstn_map.
    change (g i ∈ g <$> take k L). apply list_elem_of_fmap_2. exact Hi.
Qed.

Lemma run_stops_at_the_rejected_chunk_witness :
  let answer (q : Request) :=
    if String.eqb (endpoint q) "upload/start"
    then Responded (mkResponse 200 [] {["id" := JStr "upload-7"]})
    else Responded Examples.r404 in
  let s := Examples.client (fun _ q => answer q) None None Examples.disk in
  fst (run 1 Examples.session s) = Raise (NetworkRequestError Examples.r404)
  ∧ map endpoint (sent (snd (run 1 Examples.session s)))
    = ["upload/start"; "upload/chunk"].
Proof.
  intros answer s.
  assert (run 1 Examples.session s
          = (Raise (NetworkRequestError Examples.r404),
             withSent s
               (sent s ++ startRequest Examples.session s
                  :: map (chunkRequest Examples.session s "upload-7"
                            [Byte.x63; Byte.x6f; Byte.x72; Byte.x65; Byte.x78])
                       (take 1 (chunkRanges Examples.session))))) as E.
  { apply (run_stops_at_the_rejected_chunk 0 Examples.session s "upload-7"
             [Byte.x63; Byte.x6f; Byte.x72; Byte.x65; Byte.x78]
             (mkResponse 200 [] {["id" := JStr "upload-7"]}) Examples.r404 0).
    - discriminate.
    - discriminate.
    - reflexivity.
    - reflexivity.
    - reflexivity.
    - reflexivity.
    - simpl. lia.
    - intros x hist Hx. simpl in Hx. inversion Hx.
    - intros x hist Hx. injection Hx as <-. reflexivity.
    - repeat split; discriminate.
    - reflexivity. }
  rewrite E. split; reflexivity.
Defined.

End UploadFailures.

(** ** The chunked upload: what is read and what is kept *)

Section UploadReads.

Import NetworkManagerBase ChunkUploadSession.

(** X18: for every range of [run] on a file that has the recorded size,
    [_loadChunk], which asks for [chunkSize] bytes from [start], reads
    exactly [end - start] bytes, the bytes of the file at that range, and
    leaves the state as it was. *)
Theorem loadChunk_reads_the_range
    (self : ChunkUploadSession.t) (s : State) (c : bytes) (start end_ : Z) :
  1 ≤ chunkSize self →
  fileSize self = Z.of_nat (length c) →
  filePath self ≠ [] →
  fs s !! filePath self = Some (File c) →
  (start, end_) ∈ chunkRanges self →
  ∃ chunk,
    _loadChunk (filePath self) start (chunkSize self) s = (Ok chunk, s)
    ∧ Z.of_nat (length chunk) = end_ - start
    ∧ chunk = take (Z.to_nat (end_ - start)) (drop (Z.to_nat start) c)
    ∧ 0 ≤ start ∧ start < end_ ∧ end_ ≤ fileSize self.
Proof.
  intros HC HF Hpath Hfile Hin.
  unfold chunkRanges, range in Hin.
  apply list_elem_of_fmap in Hin. destruct Hin as (i & E & Hi).
  apply list_elem_of_fmap in Hi. destruct Hi as (n & -> & Hn).
  apply elem_of_seq in Hn. injection E as -> ->.
  destruct (chunkCount_ceil self HC ltac:(lia)) as (Hceil & Hlow & Hup & Hpos).
  assert (fileSize self ≠ 0) as HF0.
  { intros E0. rewrite E0 in Hceil. rewrite Z.div_small in Hceil by lia. lia. }
  replace (fileSize self =? 0) with false in Hlow
    by (symmetry; apply Z.eqb_neq; exact HF0).
  simpl in Hlow.
  assert (Z.of_nat n * chunkSize self < fileSize self) as Hstart by nia.
  exists (take (Z.to_nat (chunkSize self))
            (drop (Z.to_nat (Z.of_nat n * chunkSize self)) c)).
  split; [|split; [|split]].
  - unfold _loadChunk. run_monad.
    rewrite (read_file _ _ c _ _ Hpath Hfile). reflexivity.
  - rewrite length_take, length_drop. lia.
  - set (D := drop (Z.to_nat (Z.of_nat n * chunkSize self)) c).
    assert (length D = Z.to_nat (fileSize self - Z.of_nat n * chunkSize self))
      as HD by (unfold D; rewrite length_drop; lia).
    destruct (le_lt_dec (length D) (Z.to_nat (chunkSize self))) as [Hle|Hlt].
    + rewrite !take_ge by lia. reflexivity.
    + f_equal. lia.
  - lia.
Qed.

Lemma loadChunk_reads_the_range_witness :
  let s := Examples.client Examples.uploads None None Examples.disk in
  ∃ chunk,
    _loadChunk ["data"; "sample.bin"] 4 2 s = (Ok chunk, s)
    ∧ Z.of_nat (length chunk) = 5 - 4.
Proof.
  intros s.
  destruct (loadChunk_reads_the_range Examples.session s
              [Byte.x63; Byte.x6f; Byte.x72; Byte.x65; Byte.x78] 4 5)
    as (chunk & Hread & Hlen & _).
  - simpl. lia.
  - reflexivity.
  - discriminate.
  - reflexivity.
  - change (chunkRanges Examples.session) with [(0, 2); (2, 4); (4, 5)].
    right. right. left.
  - exists chunk. split; assumption.
Defined.

Lemma start_netOnly fuel self s : netOnly s (snd (__start fuel self s)).
Proof. rewrite start_state. apply genericJSONRequest_netOnly. Qed.

Lemma uploadChunk_netOnly fuel self uid start end_ s :
  netOnly s (snd (__uploadChunk fuel self uid start end_ s)).
Proof.
  unfold __uploadChunk, _loadChunk. run_monad.
  destruct (Fs.read (fs s) (filePath self) start (chunkSize self)) as [chunk|e];
    [|apply netOnly_refl].
  match goal with
  | |- context [genericUpload ?a1 ?a2 ?a3 ?a4 ?a5 ?a6] =>
      pose proof (genericUpload_netOnly a1 a2 a3 a4 a5 a6) as H;
      destruct (genericUpload a1 a2 a3 a4 a5 a6) as [[r|e] s1]
  end; simpl in H; [|exact H].
  destruct (hasFailed r); exact H.
Qed.

Lemma forEach_netOnly {A} (l : list A) body s :
  (∀ x s1, netOnly s1 (snd (body x s1))) →
  netOnly s (snd (forEach l body s)).
Proof.
  intros Hbody. revert s. induction l as [|x l IH]; intros s; simpl;
    [apply netOnly_refl|].
  run_monad. pose proof (Hbody x s) as H.
  destruct (body x s) as [[[]|e] s1]; simpl in H; [|exact H].
  eapply netOnly_trans; [exact H|apply IH].
Qed.

(** X19: [run] never changes the disk, so the file it uploads is as it was
    whatever the server answers and however the upload ends, and never
    changes the refresh token. *)
Theorem run_keeps_the_disk
    (fuel : nat) (self : ChunkUploadSession.t) (s : State) :
  fs (snd (run fuel self s)) = fs s
  ∧ fs (snd (run fuel self s)) !! filePath self = fs s !! filePath self
  ∧ refreshTokenValue (snd (run fuel self s)) = refreshTokenValue s.
Proof.
  assert (netOnly s (snd (run fuel self s))) as H.
  { unfold run. run_monad. pose proof (start_netOnly fuel self s) as H1.
    destruct (__start fuel self s) as [[uid|e] s1]; simpl in H1; [|exact H1].
    destruct (chunkSize self =? 0); [exact H1|].
    match goal with
    | |- context [forEach ?l ?body s1] =>
        pose proof (forEach_netOnly l body s1) as H2;
        destruct (forEach l body s1) as [[[]|e] s2]
    end; simpl in *;
      (eapply netOnly_trans; [exact H1|]); apply H2;
      intros x s3; apply uploadChunk_netOnly. }
  destruct H as (_ & H2 & _ & H4 & _).
  split; [exact H4|]. split; [rewrite H4; reflexivity|exact H2].
Qed.





End UploadReads.

(** ** coretex_format.py: the points of a segmentation *)

Section Polygons.

Import CoretexFormat.

Context {A : Type}.

Lemma filter_even_shift (F F' : nat → option (A * A)) (l : list nat) :
  (∀ i, F (S (S i)) = F' i) →
  omap F (List.filter Nat.even (map (fun i => S (S i)) l))
  = omap F' (List.filter Nat.even l).
Proof.
  intros HF. induction l as [|i l IH]; [reflexivity|].
  simpl map. simpl List.filter.
  change (Nat.even (S (S i))) with (Nat.even i).
  destruct (Nat.even i); [|exact IH].
  change (omap F (S (S i) :: List.filter Nat.even (map (fun i => S (S i)) l)))
    with (match F (S (S i)) with
          | Some p => p :: omap F (List.filter Nat.even (map (fun i => S (S i)) l))
          | None => omap F (List.filter Nat.even (map (fun i => S (S i)) l))
          end).
  change (omap F' (i :: List.filter Nat.even l))
    with (match F' i with
          | Some p => p :: omap F' (List.filter Nat.even l)
          | None => omap F' (List.filter Nat.even l)
          end).
  rewrite HF, IH. reflexivity.
Qed.

Lemma toPoly_nil : toPoly (@nil A) = [].
Proof. reflexivity. Qed.

Lemma toPoly_one (x : A) : toPoly [x] = [].
Proof. reflexivity. Qed.

Lemma toPoly_two (x y : A) (l : list A) : toPoly (x :: y :: l) = (x, y) :: toPoly l.
Proof.
  unfold toPoly. simpl length.
  change (S (S (length l)) - 1)%nat with (S (length l)).
  change (seq 0 (S (length l))) with (0%nat :: seq 1 (length l)).
  change (List.filter Nat.even (0%nat :: seq 1 (length l)))
    with (0%nat :: List.filter Nat.even (seq 1 (length l))).
  set (F := fun index : nat =>
              match (x :: y :: l) !! index with
              | Some x0 =>
                  match (x :: y :: l) !! S index with
                  | Some y0 => Some (x0, y0)
                  | None => None
                  end
              | None => None
              end).
  change (omap F (0%nat :: List.filter Nat.even (seq 1 (length l))))
    with ((x, y) :: omap F (List.filter Nat.even (seq 1 (length l)))).
  f_equal.
  destruct (length l) as [|n] eqn:E; [reflexivity|].
  change (S n - 1)%nat with (n - 0)%nat. rewrite Nat.sub_0_r.
  change (seq 1 (S n)) with (1%nat :: seq 2 n).
  change (List.filter Nat.even (1%nat :: seq 2 n))
    with (List.filter Nat.even (seq 2 n)).
  rewrite <- (seq_shift n 1), <- (seq_shift n 0), map_map.
  apply filter_even_shift. intros i. reflexivity.
Qed.

Lemma pairs_ind (P : list A → Prop) :
  P [] → (∀ x, P [x]) → (∀ x y l, P l → P (x :: y :: l)) → ∀ l, P l.
Proof.
  intros Hnil Hone Htwo l.
  assert (P l ∧ ∀ x, P (x :: l)) as [H _]; [|exact H].
  induction l as [|y l [IH1 IH2]]; [split; [exact Hnil|exact Hone]|].
  split; [apply IH2|]. intros x. apply Htwo. exact IH1.
Qed.

(** X21: [toPoly] pairs the values of a segmentation two by two, in their
    order: it gives [len // 2] points, the point [k] is the pair of the
    values at [2k] and [2k + 1], a last value without a partner is dropped,
    and for a list of even length the values of the points, one after the
    other, are the list again. *)
Theorem toPoly_pairs_the_values (segmentation : list A) :
  length (toPoly segmentation) = (length segmentation / 2)%nat
  ∧ flatten (toPoly segmentation)
    = take (2 * (length segmentation / 2)) segmentation
  ∧ (Nat.even (length segmentation) = true →
     flatten (toPoly segmentation) = segmentation)
  ∧ (∀ k p, toPoly segmentation !! k = Some p →
            segmentation !! (2 * k)%nat = Some p.1
            ∧ segmentation !! (2 * k + 1)%nat = Some p.2).
Proof.
  induction segmentation as [|x|x y l (IHlen & IHflat & IHeven & IHnth)]
    using pairs_ind.
  - split; [reflexivity|]. split; [reflexivity|]. split; [reflexivity|].
    intros k p H. destruct k; discriminate.
  - split; [reflexivity|]. split; [reflexivity|]. split; [discriminate|].
    intros k p H. destruct k; discriminate.
  - rewrite toPoly_two.
    assert (length (x :: y :: l) / 2 = S (length l / 2))%nat as Hdiv.
    { simpl length. replace (S (S (length l))) with (length l + 1 * 2)%nat by lia.
      rewrite Nat.div_add by lia. lia. }
    split; [|split; [|split]].
    + simpl length. rewrite IHlen. simpl length in Hdiv. lia.
    + rewrite Hdiv.
      replace (2 * S (length l / 2))%nat with (S (S (2 * (length l / 2))))
        by lia.
      unfold flatten in *. simpl. rewrite IHflat. reflexivity.
    + intros Heven. unfold flatten in *. simpl. f_equal. f_equal.
      apply IHeven. exact Heven.
    + intros k p Hk. destruct k as [|k].
      * injection Hk as <-. split; reflexivity.
      * simpl in Hk. destruct (IHnth k p Hk) as [H1 H2].
        replace (2 * S k)%nat with (S (S (2 * k))) by lia.
        replace (S (S (2 * k)) + 1)%nat with (S (S (2 * k + 1))) by lia.
        split; assumption.
Qed.

End Polygons.

(** ** log_severity.py *)

Section Severities.

Import LogSeverity.

(** X22: [fromStd] and [stdSeverity] are inverse to each other: [fromStd]
    of the standard level of a severity is that severity, [fromStd] returns
    a severity exactly for the level [stdSeverity] gives it, and it raises
    [ValueError] exactly for the levels other than 50, 40, 30, 20 and 10.
    The standard level falls as the value of the severity grows. *)
Theorem fromStd_stdSeverity_round_trip :
  (∀ s, fromStd (stdSeverity s) = Ok s)
  ∧ (∀ logLevel s, fromStd logLevel = Ok s ↔ stdSeverity s = logLevel)
  ∧ (∀ logLevel,
       fromStd logLevel = Raise ValueError
       ↔ logLevel ≠ 50 ∧ logLevel ≠ 40 ∧ logLevel ≠ 30 ∧ logLevel ≠ 20
         ∧ logLevel ≠ 10)
  ∧ (∀ s, stdSeverity s = 10 * (6 - value s))
  ∧ (∀ s1 s2, value s1 < value s2 ↔ stdSeverity s2 < stdSeverity s1).
Proof.
  assert (∀ logLevel,
            (logLevel = 50 ∧ fromStd logLevel = Ok fatal)
            ∨ (logLevel = 40 ∧ fromStd logLevel = Ok error)
            ∨ (logLevel = 30 ∧ fromStd logLevel = Ok warning)
            ∨ (logLevel = 20 ∧ fromStd logLevel = Ok info)
            ∨ (logLevel = 10 ∧ fromStd logLevel = Ok debug)
            ∨ (logLevel ≠ 50 ∧ logLevel ≠ 40 ∧ logLevel ≠ 30 ∧ logLevel ≠ 20
               ∧ logLevel ≠ 10 ∧ fromStd logLevel = Raise ValueError)) as Hcases.
  { intros logLevel. unfold fromStd, logging.FATAL, logging.CRITICAL,
      logging.ERROR, logging.WARNING, logging.INFO, logging.DEBUG.
    destruct (logLevel =? 50) eqn:E1; [left; split; [lia|reflexivity]|].
    destruct (logLevel =? 40) eqn:E2; [right; left; split; [lia|reflexivity]|].
    destruct (logLevel =? 30) eqn:E3;
      [right; right; left; split; [lia|reflexivity]|].
    destruct (logLevel =? 20) eqn:E4;
      [right; right; right; left; split; [lia|reflexivity]|].
    destruct (logLevel =? 10) eqn:E5;
      [right; right; right; right; left; split; [lia|reflexivity]|].
    right; right; right; right; right. repeat split; try lia. }
  split; [intros []; reflexivity|]. split; [|split; [|split]].
  - intros logLevel s. split.
    + intros H.
      destruct (Hcases logLevel)
        as [[-> E]|[[-> E]|[[-> E]|[[-> E]|[[-> E]|(_ & _ & _ & _ & _ & E)]]]]];
        rewrite E in H; try discriminate; injection H as <-; reflexivity.
    + intros <-. destruct s; reflexivity.
  - intros logLevel. split.
    + intros H.
      destruct (Hcases logLevel)
        as [[-> E]|[[-> E]|[[-> E]|[[-> E]|[[-> E]|(H1 & H2 & H3 & H4 & H5 & E)]]]]];
        rewrite E in H; try discriminate. repeat split; assumption.
    + intros (H1 & H2 & H3 & H4 & H5).
      destruct (Hcases logLevel)
        as [[-> E]|[[-> E]|[[-> E]|[[-> E]|[[-> E]|(_ & _ & _ & _ & _ & E)]]]]];
        try congruence.
  - intros []; reflexivity.
  - intros [] []; unfold value, stdSeverity, logging.FATAL, logging.CRITICAL,
      logging.ERROR, logging.WARNING, logging.INFO, logging.DEBUG; lia.
Qed.

End Severities.

(** ** _configuration.py *)

Section Config.

Import Configuration.

(** What [putenv] refuses. *)
Lemma putenv_spec key value :
  (putenv key value = Raise ValueError
   ↔ contains NUL key = true ∨ contains NUL value = true
     ∨ contains EQUALS key = true)
  ∧ (putenv key value = Raise OSError
     ↔ key = "" ∧ contains NUL value = false)
  ∧ (putenv key value = Ok tt
     ↔ key ≠ "" ∧ contains NUL key = false ∧ contains NUL value = false
       ∧ contains EQUALS key = false)
  ∧ (∀ e, putenv key value = Raise e → e = ValueError ∨ e = OSError).
Proof.
  unfold putenv.
  destruct (String.eqb key "") eqn:Hempty;
    [apply String.eqb_eq in Hempty|apply String.eqb_neq in Hempty];
    destruct (contains NUL key) eqn:Hk, (contains NUL value) eqn:Hd,
      (contains EQUALS key) eqn:He; simpl;
    repeat split; intros;
    repeat match goal with
           | H : _ ∧ _ |- _ => destruct H
           | H : _ ∨ _ |- _ => destruct H
           | H : Raise _ = Raise _ |- _ => injection H as <-
           end;
    try discriminate; try contradiction; try congruence; auto;
    subst; discriminate.
Qed.

Lemma getEnvVar_set key default environ v :
  environ !! key = Some v → getEnvVar key default environ = (Ok v, environ).
Proof.
  intros E. unfold getEnvVar, getitem. rewrite E. simpl. rewrite E.
  reflexivity.
Qed.

Lemma getEnvVar_unset key default environ :
  environ !! key = None →
  getEnvVar key default environ
  = match putenv key default with
    | Ok _ => (Ok default, <[key := default]> environ)
    | Raise e => (Raise e, environ)
    end.
Proof.
  intros E. unfold getEnvVar, setitem, getitem. rewrite E.
  destruct (putenv key default); simpl; [|reflexivity].
  rewrite lookup_insert_eq. reflexivity.
Qed.

(** X23: [getEnvVar] returns the value of a variable that is set and
    leaves the environment as it is, whatever the name and the default are.
    For a variable that is not set it raises [ValueError] exactly when the
    name or the default holds a NUL byte or the name holds "=", raises
    [OSError] exactly when the name is empty and the default has no NUL
    byte, and otherwise sets the variable to the default and returns it.
    A call that raises changes nothing and raises no other error; no call
    changes another variable; after a call that returns, the variable holds
    the value returned and a second call, with any default, returns it and
    changes nothing. *)
Theorem getEnvVar_sets_only_what_is_missing
    (key default : string) (environ : gmap string string) :
  let out := getEnvVar key default environ in
  (∀ v, environ !! key = Some v → out = (Ok v, environ))
  ∧ (environ !! key = None →
     (fst out = Raise ValueError
      ↔ contains NUL key = true ∨ contains NUL default = true
        ∨ contains EQUALS key = true)
     ∧ (fst out = Raise OSError
        ↔ key = "" ∧ contains NUL default = false)
     ∧ (key ≠ "" → contains NUL key = false →
        contains NUL default = false →
        contains EQUALS key = false →
        out = (Ok default, <[key := default]> environ)))
  ∧ (∀ e, fst out = Raise e →
       snd out = environ ∧ (e = ValueError ∨ e = OSError))
  ∧ (∀ v, fst out = Ok v →
       snd out !! key = Some v
       ∧ ∀ default2, getEnvVar key default2 (snd out) = out)
  ∧ (∀ other, other ≠ key → snd out !! other = environ !! other).
Proof.
  intros out. subst out. destruct (putenv_spec key default)
    as (Hvalue & Hos & Hok & Hkind).
  destruct (environ !! key) as [v|] eqn:E.
  - rewrite (getEnvVar_set key default environ v E). simpl.
    split; [intros ? [= <-]; reflexivity|].
    split; [discriminate|]. split; [discriminate|]. split; [|reflexivity].
    intros ? [= <-]. split; [exact E|]. intros default2.
    apply getEnvVar_set. exact E.
  - rewrite (getEnvVar_unset key default environ E).
    split; [discriminate|].
    destruct (putenv key default) as [[]|e] eqn:P; simpl.
    + split; [intros _; split; [|split]|split; [|split]].
      * rewrite <- Hvalue. split; discriminate.
      * rewrite <- Hos. split; discriminate.
      * reflexivity.
      * discriminate.
      * intros v [= <-]. split; [apply lookup_insert_eq|].
        intros default2. apply getEnvVar_set. apply lookup_insert_eq.
      * intros other Hother. apply lookup_insert_ne. congruence.
    + split; [intros _; split; [|split]|split; [|split]].
      * rewrite <- Hvalue. split; congruence.
      * rewrite <- Hos. split; congruence.
      * intros H1 H2 H3 H4.
        assert (Raise e = Ok tt) as Hno by (apply Hok; auto).
        discriminate.
      * intros e' [= <-]. split; [reflexivity|]. apply Hkind. reflexivity.
      * discriminate.
      * reflexivity.
Qed.

Lemma verify_spec (config : gmap string JValue) :
  _verifyConfiguration config = true
  ↔ ∀ key, key ∈ requiredKeys → is_Some (config !! key).
Proof.
  unfold _verifyConfiguration. rewrite forallb_forall. split.
  - intros H key Hkey. eapply bool_decide_eq_true_1, H, list_elem_of_In, Hkey.
  - intros H key Hkey. apply bool_decide_eq_true_2, H, list_elem_of_In, Hkey.
Qed.

(** X24: [_verifyConfiguration] accepts a configuration exactly when each
    of the nine keys of the default configuration is among its keys: the
    values are not looked at, further keys do no harm, and a configuration
    from which one of the nine keys is removed is refused. *)
Theorem verifyConfiguration_checks_the_keys (config : gmap string JValue) :
  (_verifyConfiguration config = true
   ↔ ∀ key, key ∈ requiredKeys → is_Some (config !! key))
  ∧ (∀ f : JValue → JValue,
       _verifyConfiguration (f <$> config) = _verifyConfiguration config)
  ∧ (∀ config', config ⊆ config' →
       _verifyConfiguration config = true →
       _verifyConfiguration config' = true)
  ∧ (∀ key, key ∈ requiredKeys →
       _verifyConfiguration (delete key config) = false).
Proof.
  split; [apply verify_spec|]. split; [|split].
  - intros f. apply Bool.eq_true_iff_eq. rewrite !verify_spec.
    split; intros H key Hkey; specialize (H key Hkey);
      rewrite lookup_fmap, fmap_is_Some in *; exact H.
  - intros config' Hsub H. apply verify_spec. intros key Hkey.
    destruct (proj1 (verify_spec config) H key Hkey) as [v Hv].
    exists v. eapply lookup_weaken; eassumption.
  - intros key Hkey.
    destruct (_verifyConfiguration (delete key config)) eqn:E; [|reflexivity].
    destruct (proj1 (verify_spec _) E key Hkey) as [v Hv].
    rewrite lookup_delete_eq in Hv. discriminate.
Qed.

End Config.
